(** * Word-frequency counter ([HW1/1a/wc0_fixed.py]): model and properties

    The pipeline [normalize_text] -> [clean_all_words] -> [filter_stopwords]
    -> [count_word_frequencies] -> [sort_words_by_frequency] ->
    [get_top_words] -> [build_result_dict] is embedded as pure functions.

    Python values are represented as follows.
    - [str]: [string], read as a sequence of code points below 256
      (the Latin-1 range), on which [str.lower] acts character by character;
    - [int]: [Z];
    - [list]: [list];
    - [dict]: an association list kept in insertion order, which is the
      iteration order of a Python dict;
    - the [config] dict and the result dict: records with the keys as fields.

    The same pipeline is also written on a store of objects ([Heap]), where
    lists and dicts are allocated, referred to and changed in place, to
    speak about several runs in one interpreter.  The presentation functions
    and [count_words] are computations that write to the standard output and
    may raise ([Fmt], [IO]). *)

From Stdlib Require Import ZArith List Bool String Ascii Lia.
From Stdlib Require Import Sorting.Sorted Sorting.Permutation.
Import ListNotations.

Local Open Scope string_scope.
Local Open Scope Z_scope.

(** ** The Python built-ins the program calls *)

Module Py.

(** Truth value of a [str]: the empty string is false. *)
Definition truthy (s : string) : bool :=
  match s with
  | EmptyString => false
  | String _ _ => true
  end.

(** [c in chars] for a character [c] and a [str] of characters. *)
Fixpoint char_in (c : ascii) (chars : string) : bool :=
  match chars with
  | EmptyString => false
  | String d rest => Ascii.eqb c d || char_in c rest
  end.

(** [w in l] for a list of strings: equality with some element. *)
Definition str_in (w : string) (l : list string) : bool :=
  existsb (String.eqb w) l.

(** The characters [str.split()] treats as separators:
    TAB, LF, VT, FF, CR, FS, GS, RS, US, space, NEL and NBSP. *)
Definition isspace (c : ascii) : bool :=
  let n := N_of_ascii c in
  ((9 <=? n) && (n <=? 13) || (28 <=? n) && (n <=? 32)
   || (n =? 133) || (n =? 160))%N.

(** Lowercase mapping of one code point below 256:
    [A-Z] and the accented capitals 192..222 (but not the multiplication
    sign 215) move up by 32; every other code point is kept. *)
Definition lower_char (c : ascii) : ascii :=
  let n := N_of_ascii c in
  if ((65 <=? n) && (n <=? 90)
      || (192 <=? n) && (n <=? 222) && negb (n =? 215))%N
  then ascii_of_N (n + 32)
  else c.

(** [s.lower()] *)
Fixpoint lower (s : string) : string :=
  match s with
  | EmptyString => EmptyString
  | String c rest => String (lower_char c) (lower rest)
  end.

(** [s.split()]: the scan keeps the word read so far in [cur]; a separator
    closes a non-empty word, and the end of the string closes the last. *)
Fixpoint split_scan (cur s : string) : list string :=
  match s with
  | EmptyString => if truthy cur then [cur] else []
  | String c rest =>
      if isspace c
      then (if truthy cur then cur :: split_scan EmptyString rest
            else split_scan EmptyString rest)
      else split_scan (cur ++ String c EmptyString) rest
  end.

Definition split (s : string) : list string := split_scan EmptyString s.

(** [s.lstrip(chars)] *)
Fixpoint lstrip (s chars : string) : string :=
  match s with
  | EmptyString => EmptyString
  | String c rest => if char_in c chars then lstrip rest chars else s
  end.

(** [s.rstrip(chars)] *)
Fixpoint rstrip (s chars : string) : string :=
  match s with
  | EmptyString => EmptyString
  | String c rest =>
      let r := rstrip rest chars in
      if negb (truthy r) && char_in c chars then EmptyString else String c r
  end.

(** [s.strip(chars)]: the left end is cut first, then the right end. *)
Definition strip (s chars : string) : string :=
  rstrip (lstrip s chars) chars.

(** A [dict] from [str] to [int], in insertion order. *)
Definition dict : Type := list (string * Z).

(** [d.get(k, default)] *)
Fixpoint get (d : dict) (k : string) (default : Z) : Z :=
  match d with
  | [] => default
  | (k', v) :: rest => if String.eqb k k' then v else get rest k default
  end.

(** [d[k] = v]: an existing key keeps its position, a new key goes last. *)
Fixpoint set (d : dict) (k : string) (v : Z) : dict :=
  match d with
  | [] => [(k, v)]
  | (k', v') :: rest =>
      if String.eqb k k' then (k', v) :: rest else (k', v') :: set rest k v
  end.

(** [d.items()], [d.values()], [len(d)] and the keys. *)
Definition items (d : dict) : list (string * Z) := d.
Definition values (d : dict) : list Z := map snd d.
Definition keys (d : dict) : list string := map fst d.
Definition len {A : Type} (l : list A) : Z := Z.of_nat (List.length l).

(** [sum(l)] *)
Definition sum (l : list Z) : Z := fold_left Z.add l 0.

(** [sorted(l, key=key, reverse=True)]: descending in [key], and stable:
    elements with equal keys keep the order they have in [l]. *)
Section Sorted.
Context {A : Type} (key : A -> Z).

Fixpoint insert_desc (x : A) (l : list A) : list A :=
  match l with
  | [] => [x]
  | y :: rest =>
      if key x <? key y then y :: insert_desc x rest else x :: l
  end.

Fixpoint sorted_reverse (l : list A) : list A :=
  match l with
  | [] => []
  | x :: rest => insert_desc x (sorted_reverse rest)
  end.
End Sorted.

(** [l[:n]]: a negative bound counts from the end, and bounds outside
    the list are clamped. *)
Definition slice_to {A : Type} (l : list A) (n : Z) : list A :=
  if n <? 0 then firstn (Z.to_nat (Z.max 0 (len l + n))) l
  else firstn (Z.to_nat n) l.

End Py.

(** ** The configuration and the result *)

Record Config : Type := mkConfig {
  stopwords : list string;
  punctuation : string;
  top_n : Z;
  bar_char : string;
  word_width : Z;
  count_width : Z
}.

Record Result : Type := mkResult {
  counts : Py.dict;
  top_words : list (string * Z);
  total_words : Z;
  unique_words : Z
}.

(** The double quote, a member of the punctuation string. *)
Definition dquote : ascii := ascii_of_N 34.

Definition CONFIG : Config := {|
  stopwords := ["the"; "a"; "an"; "and"; "or"; "but"; "in"; "on"; "at"; "to";
                "for"; "of"; "is"; "was"; "are"; "were"; "be"; "been"; "with"];
  punctuation := ".,!?;:" ++ String dquote "()[]";
  top_n := 10;
  bar_char := "*";
  word_width := 15;
  count_width := 3
|}.

(** ** The model functions of the program *)

Definition clean_word (word punctuation : string) : string :=
  Py.strip word punctuation.

Definition normalize_text (text : string) : list string :=
  Py.split (Py.lower text).

Definition filter_stopwords (words stopwords : list string) : list string :=
  filter (fun word => Py.truthy word && negb (Py.str_in word stopwords)) words.

(** One turn of the loop of [count_word_frequencies]:
    [counts[word] = counts.get(word, 0) + 1]. *)
Definition count_step (counts : Py.dict) (word : string) : Py.dict :=
  Py.set counts word (Py.get counts word 0 + 1).

Definition count_word_frequencies (words : list string) : Py.dict :=
  fold_left count_step words [].

Definition sort_words_by_frequency (counts : Py.dict) : list (string * Z) :=
  Py.sorted_reverse snd (Py.items counts).

Definition get_top_words (sorted_words : list (string * Z)) (top_n : Z)
  : list (string * Z) :=
  Py.slice_to sorted_words top_n.

(** One turn of the loop of [clean_all_words], with the list built so far
    as state: a word that is not empty after cleaning is appended. *)
Definition clean_step (punctuation : string) (cleaned_words : list string)
    (word : string) : list string :=
  let cleaned := clean_word word punctuation in
  if Py.truthy cleaned then (cleaned_words ++ [cleaned])%list
  else cleaned_words.

Definition clean_all_words (words : list string) (punctuation : string)
  : list string :=
  fold_left (clean_step punctuation) words [].

Definition build_result_dict (counts : Py.dict) (top_words : list (string * Z))
  : Result := {|
  counts := counts;
  top_words := top_words;
  total_words := Py.sum (Py.values counts);
  unique_words := Py.len counts
|}.

(** The token sequence that reaches the counter (the local
    [filtered_words] of [process_text]). *)
Definition filtered_words (text : string) (config : Config) : list string :=
  let words := normalize_text text in
  let cleaned_words := clean_all_words words (punctuation config) in
  filter_stopwords cleaned_words (stopwords config).

Definition process_text (text : string) (config : Config) : Result :=
  let words := normalize_text text in
  let cleaned_words := clean_all_words words (punctuation config) in
  let filtered_words := filter_stopwords cleaned_words (stopwords config) in
  let counts := count_word_frequencies filtered_words in
  let sorted_words := sort_words_by_frequency counts in
  let top_words := get_top_words sorted_words (top_n config) in
  build_result_dict counts top_words.

(** ** The pipeline on a store of objects

    Lists and dicts are objects: they have an identity, they are reached
    through references, and they are changed in place.  Here the pipeline
    is written as the program runs it, on a store of such objects: every
    list and dict it builds is allocated in the store, the loops change the
    object they fill, the configuration is a dict object that the caller
    passes by reference (its ['stopwords'] entry refers to a list object),
    and the result dict refers to the [counts] object that the counting
    loop filled.  Strings and integers are values.  A run starts in the
    store that earlier runs have left. *)

Module Heap.

(** A reference: the position of the object in the store. *)
Definition ref : Type := nat.

Inductive obj : Type :=
| OList (items : list string)
| OPairs (items : list (string * Z))
| ODict (items : Py.dict)
| OConfig (stopwords : ref) (punctuation : string) (top_n : Z)
          (bar_char : string) (word_width count_width : Z)
| OResult (counts top_words : ref) (total_words unique_words : Z).

Definition store : Type := list obj.

(** A step of a run: it fails ([None]: an object of the wrong kind is
    used, a [TypeError] or [KeyError] of the program), or it gives a value
    and the store it leaves. *)
Definition M (A : Type) : Type := store -> option (A * store).

Definition ret {A : Type} (a : A) : M A := fun s => Some (a, s).

Definition bind {A B : Type} (c : M A) (k : A -> M B) : M B :=
  fun s =>
    match c s with
    | Some (a, s') => k a s'
    | None => None
    end.

Notation "x <~ c ;; k" := (bind c (fun x => k))
  (at level 61, c at next level, right associativity).

(** A new object, at a fresh position. *)
Definition alloc (o : obj) : M ref :=
  fun s => Some (List.length s, (s ++ [o])%list).

(** The object at [r] replaced by [o]. *)
Definition put (r : ref) (o : obj) (s : store) : store :=
  (firstn r s ++ o :: skipn (S r) s)%list.

Definition get_list (r : ref) : M (list string) :=
  fun s =>
    match nth_error s r with
    | Some (OList l) => Some (l, s)
    | _ => None
    end.

Definition get_pairs (r : ref) : M (list (string * Z)) :=
  fun s =>
    match nth_error s r with
    | Some (OPairs l) => Some (l, s)
    | _ => None
    end.

Definition get_dict (r : ref) : M Py.dict :=
  fun s =>
    match nth_error s r with
    | Some (ODict d) => Some (d, s)
    | _ => None
    end.

(** [l.append(x)], in place. *)
Definition list_append (r : ref) (x : string) : M unit :=
  fun s =>
    match nth_error s r with
    | Some (OList l) => Some (tt, put r (OList (l ++ [x])) s)
    | _ => None
    end.

(** [d.get(k, default)] *)
Definition dict_get (r : ref) (k : string) (default : Z) : M Z :=
  fun s =>
    match nth_error s r with
    | Some (ODict d) => Some (Py.get d k default, s)
    | _ => None
    end.

(** [d[k] = v], in place. *)
Definition dict_set (r : ref) (k : string) (v : Z) : M unit :=
  fun s =>
    match nth_error s r with
    | Some (ODict d) => Some (tt, put r (ODict (Py.set d k v)) s)
    | _ => None
    end.

(** [config['stopwords']], [config['punctuation']], [config['top_n']] *)
Definition config_stopwords (config : ref) : M ref :=
  fun s =>
    match nth_error s config with
    | Some (OConfig st _ _ _ _ _) => Some (st, s)
    | _ => None
    end.

Definition config_punctuation (config : ref) : M string :=
  fun s =>
    match nth_error s config with
    | Some (OConfig _ p _ _ _ _) => Some (p, s)
    | _ => None
    end.

Definition config_top_n (config : ref) : M Z :=
  fun s =>
    match nth_error s config with
    | Some (OConfig _ _ n _ _ _) => Some (n, s)
    | _ => None
    end.

(** [for x in l: body(x)], for a list [l] that the body does not change. *)
Fixpoint for_each {A : Type} (l : list A) (body : A -> M unit) : M unit :=
  match l with
  | [] => ret tt
  | x :: rest => _ <~ body x ;; for_each rest body
  end.

(** *** The model functions of the program, on the store *)

(** [text.lower().split()] builds a new list. *)
Definition normalize_text (text : string) : M ref :=
  alloc (OList (Py.split (Py.lower text))).

(** The loop runs over [words] and appends to [cleaned_words], which is a
    new object and so another one than [words]. *)
Definition clean_all_words (words : ref) (punctuation : string) : M ref :=
  cleaned_words <~ alloc (OList []) ;;
  ws <~ get_list words ;;
  _ <~ for_each ws (fun word =>
         let cleaned := clean_word word punctuation in
         if Py.truthy cleaned then list_append cleaned_words cleaned
         else ret tt) ;;
  ret cleaned_words.

(** The list comprehension builds a new list. *)
Definition filter_stopwords (words stopwords : ref) : M ref :=
  ws <~ get_list words ;;
  stops <~ get_list stopwords ;;
  alloc (OList (filter (fun word =>
                          Py.truthy word && negb (Py.str_in word stops)) ws)).

Definition count_word_frequencies (words : ref) : M ref :=
  counts <~ alloc (ODict []) ;;
  ws <~ get_list words ;;
  _ <~ for_each ws (fun word =>
         v <~ dict_get counts word 0 ;;
         dict_set counts word (v + 1)) ;;
  ret counts.

(** [sorted] builds a new list of the items. *)
Definition sort_words_by_frequency (counts : ref) : M ref :=
  d <~ get_dict counts ;;
  alloc (OPairs (Py.sorted_reverse snd (Py.items d))).

(** A slice is a new list. *)
Definition get_top_words (sorted_words : ref) (top_n : Z) : M ref :=
  l <~ get_pairs sorted_words ;;
  alloc (OPairs (Py.slice_to l top_n)).

(** The result dict refers to the objects [counts] and [top_words]
    themselves. *)
Definition build_result_dict (counts top_words : ref) : M ref :=
  d <~ get_dict counts ;;
  alloc (OResult counts top_words (Py.sum (Py.values d)) (Py.len d)).

Definition process_text (text : string) (config : ref) : M ref :=
  words <~ normalize_text text ;;
  punctuation <~ config_punctuation config ;;
  cleaned_words <~ clean_all_words words punctuation ;;
  stopwords <~ config_stopwords config ;;
  filtered_words <~ filter_stopwords cleaned_words stopwords ;;
  counts <~ count_word_frequencies filtered_words ;;
  sorted_words <~ sort_words_by_frequency counts ;;
  top_n <~ config_top_n config ;;
  top_words <~ get_top_words sorted_words top_n ;;
  build_result_dict counts top_words.

(** *** Reading a store *)

(** The configuration that the object at [c] holds. *)
Definition config_value (s : store) (c : ref) : option Config :=
  match nth_error s c with
  | Some (OConfig st p n b ww cw) =>
      match nth_error s st with
      | Some (OList stops) => Some (mkConfig stops p n b ww cw)
      | _ => None
      end
  | _ => None
  end.

(** The result that the object at [r] holds, with the contents of the
    objects it refers to. *)
Definition result_value (s : store) (r : ref) : option Result :=
  match nth_error s r with
  | Some (OResult c t total unique) =>
      match nth_error s c, nth_error s t with
      | Some (ODict d), Some (OPairs l) => Some (mkResult d l total unique)
      | _, _ => None
      end
  | _ => None
  end.

(** The store after the module is loaded: the list of stopwords and the
    dict [CONFIG] that refers to it. *)
Definition module_store : store :=
  [OList (stopwords CONFIG);
   OConfig 0%nat (punctuation CONFIG) (top_n CONFIG) (bar_char CONFIG)
           (word_width CONFIG) (count_width CONFIG)].

Definition CONFIG_ref : ref := 1%nat.

End Heap.

(** ** The Python built-ins of the presentation functions *)

Module Fmt.

(** [sys.maxsize] of a 64-bit CPython: the largest length of a string and
    the largest width of a format specification. *)
Definition max_size : Z := 2 ^ 63 - 1.

(** The [int]s that fit a signed machine word of 64 bits.  Such an [int]
    has at most 19 decimal digits, so that [str] converts it under every
    setting of the interpreter's limit on the digits of a conversion; the
    properties below ask it of the [int]s that are converted.  Counts of a
    repetition and widths of a format need no such condition: the functions
    below raise where CPython does.  Running out of memory is not
    described. *)
Definition word_sized (n : Z) : Prop := - 2 ^ 63 <= n < 2 ^ 63.

(** The line feed. *)
Definition nl : string := String (ascii_of_N 10) EmptyString.

(** The exceptions the program can raise. *)
Inductive exn : Type :=
| ValueError
| OSError
| OverflowError.

(** [n] copies of [s], one after the other. *)
Fixpoint repeat_nat (s : string) (n : nat) : string :=
  match n with
  | O => EmptyString
  | S k => s ++ repeat_nat s k
  end.

(** [s * n] for a [str] and an [int].  A count that does not fit a machine
    word is refused; a count of zero or less gives the empty string; a
    result longer than [max_size] is refused: [OverflowError]. *)
Definition repeat (s : string) (n : Z) : exn + string :=
  if (n <? - 2 ^ 63) || (max_size <? n) then inl OverflowError
  else if n <=? 0 then inr EmptyString
  else if max_size <? Z.of_nat (String.length s) * n then inl OverflowError
  else inr (repeat_nat s (Z.to_nat n)).

(** The character of a decimal digit. *)
Definition digit (d : Z) : ascii := ascii_of_N (48 + Z.to_N d).

(** The decimal digits of [n >= 0], most significant first, put in front of
    [acc]; [fuel] bounds the number of digits. *)
Fixpoint digits (fuel : nat) (n : Z) (acc : string) : string :=
  match fuel with
  | O => acc
  | S fuel' =>
      let acc' := String (digit (n mod 10)) acc in
      if n <? 10 then acc' else digits fuel' (n / 10) acc'
  end.

Definition str_nonneg (n : Z) : string :=
  digits (S (Z.to_nat (Z.log2 n))) n EmptyString.

(** [str(n)] for an [int]. *)
Definition str (n : Z) : string :=
  if n <? 0 then String "-" (str_nonneg (- n)) else str_nonneg n.

(** The spaces that fill [s] up to the width [w]; none when [s] is as long
    as [w] or longer. *)
Definition padding (s : string) (w : Z) : string :=
  repeat_nat " " (Z.to_nat (w - Z.of_nat (String.length s))).

(** The replacement field [{n:{w}}] of an f-string for [int]s [n] and [w]:
    [format(n, str(w))].  The specification [str(w)] is a plain width for
    [w > 0]; for [w = 0] it is the zero flag without a width; for [w < 0]
    its minus is the sign option and the digits are the width.  A width
    above [max_size] is refused: [ValueError].  An [int] is aligned to the
    right. *)
Definition format_int (n w : Z) : exn + string :=
  if max_size <? Z.abs w then inl ValueError
  else let s := str n in inr (padding s (Z.abs w) ++ s).

(** The replacement field [{s:{w}}] for a [str] [s] and an [int] [w]:
    [format(s, str(w))].  A [str] is aligned to the left and never cut.
    For [w < 0] the specification starts with a sign, which a [str] does
    not accept, and a width above [max_size] is refused: [ValueError].
    (For [w = 0] the zero flag stands without a width, as Python 3.10 and
    later read it.) *)
Definition format_str (s : string) (w : Z) : exn + string :=
  if (w <? 0) || (max_size <? w) then inl ValueError
  else inr (s ++ padding s w).

(** A [str] with a NUL character, which no file name may hold. *)
Definition has_nul (s : string) : bool := Py.char_in Ascii.zero s.

End Fmt.

(** ** Input and output *)

(** The part of the world the program touches.  [files] tells, for a file
    name without NUL, what [open(name)] followed by [read()] does: it gives
    the text of the file, or raises ([OSError] when the file cannot be
    opened, [ValueError] when its bytes cannot be decoded).  [stdout] is
    what was written to the standard output so far; the standard output is
    taken to accept every string. *)
Record World : Type := mkWorld {
  files : string -> Fmt.exn + string;
  stdout : string
}.

(** A computation that may raise or return, and may change the world. *)
Definition IO (A : Type) : Type := World -> (Fmt.exn + A) * World.

Definition ret {A : Type} (a : A) : IO A := fun w => (inr a, w).

Definition raise {A : Type} (e : Fmt.exn) : IO A := fun w => (inl e, w).

Definition bind {A B : Type} (c : IO A) (k : A -> IO B) : IO B :=
  fun w =>
    match c w with
    | (inl e, w') => (inl e, w')
    | (inr a, w') => k a w'
    end.

Notation "x <- c ;; k" := (bind c (fun x => k))
  (at level 61, c at next level, right associativity).
Notation "c ;;; k" := (bind c (fun _ => k))
  (at level 61, right associativity).

(** A value or an exception, as a computation. *)
Definition lift {A : Type} (r : Fmt.exn + A) : IO A :=
  match r with
  | inl e => raise e
  | inr a => ret a
  end.

(** [print(s)]: [s] and a line feed go to the standard output. *)
Definition print (s : string) : IO unit :=
  fun w => (inr tt, {| files := files w; stdout := stdout w ++ s ++ Fmt.nl |}).

(** ** The input and presentation functions of the program *)

(** [open] refuses a name with a NUL character ([ValueError]) before it
    looks for the file. *)
Definition read_text_file (filename : string) : IO string :=
  fun w =>
    if Fmt.has_nul filename then (inl Fmt.ValueError, w)
    else match files w filename with
         | inr text => (inr text, w)
         | inl e => (inl e, w)
         end.

Definition format_bar (count : Z) (bar_char : string) : Fmt.exn + string :=
  Fmt.repeat bar_char count.

(** The fields of the f-string are formatted from left to right; the last
    one, [{bar}], has no specification and is [bar] itself. *)
Definition format_word_line (index : Z) (word : string) (count : Z)
    (bar : string) (word_width count_width : Z) : Fmt.exn + string :=
  match Fmt.format_int index 2 with
  | inl e => inl e
  | inr i =>
      match Fmt.format_str word word_width with
      | inl e => inl e
      | inr w =>
          match Fmt.format_int count count_width with
          | inl e => inl e
          | inr c => inr (i ++ ". " ++ w ++ " " ++ c ++ " " ++ bar)
          end
      end
  end.

Definition print_header (filename : string) : IO unit :=
  rule <- lift (Fmt.repeat "=" 50) ;;
  print (Fmt.nl ++ rule) ;;;
  print ("WORD FREQUENCY ANALYSIS - " ++ filename) ;;;
  rule <- lift (Fmt.repeat "=" 50) ;;
  print (rule ++ Fmt.nl).

Definition print_summary (result : Result) : IO unit :=
  print ("Total words (after removing stopwords): "
         ++ Fmt.str (total_words result)) ;;;
  print ("Unique words: " ++ Fmt.str (unique_words result) ++ Fmt.nl).

(** The loop of [print_top_words] over [enumerate(result['top_words'], 1)],
    from the entry numbered [i] on. *)
Fixpoint print_entries (i : Z) (entries : list (string * Z))
    (config : Config) : IO unit :=
  match entries with
  | [] => ret tt
  | (word, count) :: rest =>
      bar <- lift (format_bar count (bar_char config)) ;;
      line <- lift (format_word_line i word count bar
                      (word_width config) (count_width config)) ;;
      print line ;;;
      print_entries (i + 1) rest config
  end.

Definition print_top_words (result : Result) (config : Config) : IO unit :=
  print ("Top " ++ Fmt.str (top_n config) ++ " most frequent words:"
         ++ Fmt.nl) ;;;
  print_entries 1 (top_words result) config ;;;
  print "".

Definition print_results (result : Result) (filename : string)
    (config : Config) : IO unit :=
  print_header filename ;;;
  print_summary result ;;;
  print_top_words result config.

(** [count_words(file, config)]; an argument left out is [None], and stands
    for ["essay.txt"] and for [CONFIG]. *)
Definition count_words (file : option string) (config : option Config)
  : IO unit :=
  let file := match file with Some f => f | None => "essay.txt" end in
  let config := match config with Some c => c | None => CONFIG end in
  text <- read_text_file file ;;
  let result := process_text text config in
  print_results result file config.

(** ** Notions used to state the properties *)

(** Every character of [s] satisfies [p]. *)
Fixpoint all_chars (p : ascii -> bool) (s : string) : bool :=
  match s with
  | EmptyString => true
  | String c rest => p c && all_chars p rest
  end.

Definition first_char (s : string) : option ascii :=
  match s with
  | EmptyString => None
  | String c _ => Some c
  end.

Fixpoint last_char (s : string) : option ascii :=
  match s with
  | EmptyString => None
  | String c EmptyString => Some c
  | String _ rest => last_char rest
  end.

(** [s] is empty or begins with a separator: a word that is followed by
    [s] cannot be extended. *)
Definition word_boundary (s : string) : Prop :=
  match s with
  | EmptyString => True
  | String c _ => Py.isspace c = true
  end.

(** Splitting on whitespace runs, as a relation between a text and its
    words: the text is a run of separators, then a maximal non-empty word
    free of separators, then the rest, which is split in the same way. *)
Inductive split_on_whitespace : string -> list string -> Prop :=
| split_blank (s : string) :
    all_chars Py.isspace s = true -> split_on_whitespace s []
| split_word (pre w rest : string) (ws : list string) :
    all_chars Py.isspace pre = true ->
    w <> EmptyString ->
    all_chars (fun c => negb (Py.isspace c)) w = true ->
    word_boundary rest ->
    split_on_whitespace rest ws ->
    split_on_whitespace (pre ++ w ++ rest) (w :: ws).

(** [t] is the word [w] without its leading and trailing characters of
    [chars]: what is cut off consists of such characters only, what is left
    neither begins nor ends with one, and the interior is untouched. *)
Definition stripped_of (chars w t : string) : Prop :=
  exists pre post : string,
    w = pre ++ t ++ post /\
    all_chars (fun c => Py.char_in c chars) pre = true /\
    all_chars (fun c => Py.char_in c chars) post = true /\
    (forall c, first_char t = Some c -> Py.char_in c chars = false) /\
    (forall c, last_char t = Some c -> Py.char_in c chars = false).

(** The tokenization stage as the specification words it: lowercase, split
    on whitespace runs, strip the edges of every word, drop the empty ones. *)
Definition tokenized (text chars : string) (tokens : list string) : Prop :=
  exists raw stripped : list string,
    split_on_whitespace (Py.lower text) raw /\
    Forall2 (stripped_of chars) raw stripped /\
    tokens = filter Py.truthy stripped.

(** A well-formed token: not empty, no configured punctuation at an edge. *)
Definition clean_token (chars t : string) : Prop :=
  t <> EmptyString /\
  (forall c, first_char t = Some c -> Py.char_in c chars = false) /\
  (forall c, last_char t = Some c -> Py.char_in c chars = false).

(** [x] may stand before [y] in a list that is descending in [key]. *)
Definition desc_by {A : Type} (key : A -> Z) (x y : A) : Prop :=
  key y <= key x.

(** Counts never go up along the list. *)
Definition count_non_increasing (l : list (string * Z)) : Prop :=
  StronglySorted (desc_by snd) l.

(** Position of the first occurrence of [w] in [l]. *)
Fixpoint first_index (w : string) (l : list string) : option nat :=
  match l with
  | [] => None
  | x :: rest =>
      if String.eqb w x then Some O
      else option_map S (first_index w rest)
  end.

(** The distinct elements of a list, each at its first occurrence. *)
Fixpoint first_occurrences (l : list string) : list string :=
  match l with
  | [] => []
  | x :: rest =>
      x :: filter (fun y => negb (String.eqb y x)) (first_occurrences rest)
  end.

(** [a] occurs in [l] at some position, and [b] at a later one. *)
Inductive precedes {A : Type} (a b : A) : list A -> Prop :=
| precedes_here (l : list A) : In b l -> precedes a b (a :: l)
| precedes_later (x : A) (l : list A) : precedes a b l -> precedes a b (x :: l).

(** Every token of the text is a stopword of the configuration. *)
Definition only_stopwords (text : string) (config : Config) : Prop :=
  Forall (fun w => In w (stopwords config))
         (clean_all_words (normalize_text text) (punctuation config)).

(** The result of a run on a text without tokens. *)
Definition empty_result : Result := {|
  counts := [];
  top_words := [];
  total_words := 0;
  unique_words := 0
|}.

(** Number of occurrences of [w] in [l], as a Python [int]. *)
Definition occurrences (w : string) (l : list string) : Z :=
  Z.of_nat (count_occ string_dec l w).

(** No character of [s] is a separator of [str.split()]. *)
Definition whitespace_free (s : string) : Prop :=
  all_chars (fun c => negb (Py.isspace c)) s = true.

(** [s.lower()] leaves [s] as it is. *)
Definition lowercase (s : string) : Prop := Py.lower s = s.

(** Length of a [str], as a Python [int]. *)
Definition slen (s : string) : Z := Z.of_nat (String.length s).

(** Number of line feeds in [s]. *)
Fixpoint line_feeds (s : string) : Z :=
  match s with
  | EmptyString => 0
  | String c rest =>
      (if Ascii.eqb c (ascii_of_N 10) then 1 else 0) + line_feeds rest
  end.

(** The value of a string of decimal digits read after the value [v]. *)
Fixpoint decimal_value (v : Z) (s : string) : Z :=
  match s with
  | EmptyString => v
  | String c rest => decimal_value (10 * v + (Z.of_N (N_of_ascii c) - 48)) rest
  end.

(** The computation [c], run in the world [w], returns normally, having
    written [out] to the standard output and changed nothing else. *)
Definition writes {A : Type} (c : IO A) (w : World) (out : string) : Prop :=
  exists a : A,
    c w = (inr a, {| files := files w; stdout := stdout w ++ out |}).

(** The computation [c], run in the world [w], raises [e], having written
    [out] to the standard output and changed nothing else. *)
Definition raises {A : Type} (c : IO A) (w : World) (e : Fmt.exn)
    (out : string) : Prop :=
  c w = (inl e, {| files := files w; stdout := stdout w ++ out |}).

(** The widths of the configuration are ones that the format of a line
    accepts. *)
Definition widths_accepted (config : Config) : Prop :=
  0 <= word_width config <= Fmt.max_size /\
  Z.abs (count_width config) <= Fmt.max_size.

Definition widths_refused (config : Config) : Prop :=
  word_width config < 0 \/ Fmt.max_size < word_width config \/
  Fmt.max_size < Z.abs (count_width config).

(** The bar of [count] copies of [bar_char] is one that can be built. *)
Definition bar_fits (bar_char : string) (count : Z) : Prop :=
  Fmt.word_sized count /\ slen bar_char * Z.max 0 count <= Fmt.max_size.

(** A decimal number, aligned to the right in a column of width [w]. *)
Definition column (n w : Z) : string :=
  Fmt.padding (Fmt.str n) w ++ Fmt.str n.

(** The line of the entry numbered [i], where widths and bar are accepted:
    index column, word, padding, count column, bar. *)
Definition entry_line (i : Z) (word : string) (count : Z) (config : Config)
  : string :=
  column i 2 ++ ". " ++ word
  ++ Fmt.padding word (word_width config) ++ " "
  ++ column count (Z.abs (count_width config)) ++ " "
  ++ Fmt.repeat_nat (bar_char config) (Z.to_nat count).

(** The lines of the entries, numbered from [i], each with its line feed. *)
Fixpoint entry_lines (i : Z) (entries : list (string * Z)) (config : Config)
  : string :=
  match entries with
  | [] => EmptyString
  | (word, count) :: rest =>
      entry_line i word count config ++ Fmt.nl
      ++ entry_lines (i + 1) rest config
  end.

(** The heading that [print_top_words] writes before the entries. *)
Definition top_heading (config : Config) : string :=
  "Top " ++ Fmt.str (top_n config) ++ " most frequent words:"
  ++ Fmt.nl ++ Fmt.nl.

(** What [print_header] and [print_summary] write. *)
Definition header_text (filename : string) : string :=
  Fmt.nl ++ Fmt.repeat_nat "=" 50 ++ Fmt.nl
  ++ "WORD FREQUENCY ANALYSIS - " ++ filename ++ Fmt.nl
  ++ Fmt.repeat_nat "=" 50 ++ Fmt.nl ++ Fmt.nl.

Definition summary_text (total unique : Z) : string :=
  "Total words (after removing stopwords): " ++ Fmt.str total ++ Fmt.nl
  ++ "Unique words: " ++ Fmt.str unique ++ Fmt.nl ++ Fmt.nl.

(** The [int]s of the configuration fit a machine word. *)
Definition config_word_sized (config : Config) : Prop :=
  Fmt.word_sized (top_n config) /\
  Fmt.word_sized (word_width config) /\
  Fmt.word_sized (count_width config).

(** The [int]s of a result, and the number of its ranked entries, fit a
    machine word. *)
Definition result_word_sized (result : Result) : Prop :=
  Fmt.word_sized (total_words result) /\
  Fmt.word_sized (unique_words result) /\
  Fmt.word_sized (Py.len (top_words result)) /\
  Forall (fun p => Fmt.word_sized (snd p)) (top_words result).

(** The step [c], run in the store [s], allocates the object [o] and
    returns the reference to it; the objects of [s] stay as they are. *)
Definition allocates (c : Heap.M Heap.ref) (s : Heap.store) (o : Heap.obj)
  : Prop :=
  c s = Some (List.length s, (s ++ [o])%list).

(** * Properties *)

(** ** Strings *)

Lemma append_nil_r (s : string) : s ++ "" = s.
Proof. induction s as [|c s IH]; simpl; [reflexivity | now rewrite IH]. Qed.

Lemma append_assoc (s t u : string) : (s ++ t) ++ u = s ++ t ++ u.
Proof. induction s as [|c s IH]; simpl; [reflexivity | now rewrite IH]. Qed.

Lemma truthy_true_iff (s : string) : Py.truthy s = true <-> s <> "".
Proof. destruct s; simpl; split; congruence. Qed.

Lemma truthy_false_iff (s : string) : Py.truthy s = false <-> s = "".
Proof. destruct s; simpl; split; congruence. Qed.

Lemma all_chars_app (p : ascii -> bool) (s t : string) :
  all_chars p (s ++ t) = all_chars p s && all_chars p t.
Proof.
  induction s as [|c s IH]; simpl; [reflexivity|].
  now rewrite IH, andb_assoc.
Qed.

(** ** [str.split]: the scan meets the relational description *)

Lemma split_on_whitespace_skip (c : ascii) (s : string) (ws : list string) :
  Py.isspace c = true ->
  split_on_whitespace s ws -> split_on_whitespace (String c s) ws.
Proof.
  intros Hc H. destruct H as [s Hs | pre w rest ws Hpre Hw Hns Hb Hrest].
  - apply split_blank. simpl. now rewrite Hc.
  - change (String c (pre ++ w ++ rest)) with (String c pre ++ w ++ rest).
    apply split_word; trivial. simpl. now rewrite Hc.
Qed.

Lemma split_scan_spec (s cur : string) :
  all_chars (fun c => negb (Py.isspace c)) cur = true ->
  split_on_whitespace (cur ++ s) (Py.split_scan cur s).
Proof.
  revert cur. induction s as [|c s IH]; intros cur Hcur; simpl.
  - rewrite append_nil_r. destruct (Py.truthy cur) eqn:E.
    + rewrite <- (append_nil_r cur) at 1.
      apply (split_word "" cur ""); simpl; trivial.
      * now apply truthy_true_iff.
      * now apply split_blank.
    + apply truthy_false_iff in E. subst cur. now apply split_blank.
  - destruct (Py.isspace c) eqn:Ec.
    + assert (Hrest : split_on_whitespace (String c s) (Py.split_scan "" s)).
      { apply split_on_whitespace_skip; trivial. apply (IH ""). reflexivity. }
      destruct (Py.truthy cur) eqn:E.
      * apply (split_word "" cur (String c s)); simpl; trivial.
        now apply truthy_true_iff.
      * apply truthy_false_iff in E. subst cur. exact Hrest.
    + replace (cur ++ String c s) with ((cur ++ String c "") ++ s)
        by (now rewrite append_assoc).
      apply IH. rewrite all_chars_app, Hcur. simpl. now rewrite Ec.
Qed.

Lemma split_spec (s : string) : split_on_whitespace s (Py.split s).
Proof. apply (split_scan_spec s ""). reflexivity. Qed.

(** The relation determines the words: a text has one list of words. *)

Lemma split_on_whitespace_inv (s : string) (ws : list string) :
  split_on_whitespace s ws ->
  (ws = [] /\ all_chars Py.isspace s = true) \/
  (exists pre w rest ws',
     s = pre ++ w ++ rest /\ ws = w :: ws' /\
     all_chars Py.isspace pre = true /\ w <> "" /\
     all_chars (fun c => negb (Py.isspace c)) w = true /\
     word_boundary rest /\ split_on_whitespace rest ws').
Proof.
  destruct 1 as [s Hs | pre w rest ws Hpre Hw Hns Hb Hrest].
  - left. now split.
  - right. exists pre, w, rest, ws. repeat (split; trivial).
Qed.

Lemma blank_has_no_word (pre w rest : string) :
  all_chars Py.isspace (pre ++ w ++ rest) = true ->
  all_chars (fun c => negb (Py.isspace c)) w = true ->
  w = "".
Proof.
  rewrite !all_chars_app, !andb_true_iff. intros (_ & Hw & _) Hns.
  destruct w as [|c w]; [reflexivity|]. simpl in Hw, Hns.
  apply andb_true_iff in Hw, Hns. destruct Hw as [Hc _], Hns as [Hc' _].
  rewrite Hc in Hc'. discriminate.
Qed.

(** Where the text after a cut begins with a character outside [p], the
    cut after a run of characters of [p] is at one place only. *)
Lemma run_then_other_unique (p : ascii -> bool) (pre pre' x x' : string) :
  all_chars p pre = true -> all_chars p pre' = true ->
  (exists c, first_char x = Some c /\ p c = false) ->
  (exists c, first_char x' = Some c /\ p c = false) ->
  pre ++ x = pre' ++ x' -> pre = pre' /\ x = x'.
Proof.
  revert pre'. induction pre as [|a pre IH]; intros [|a' pre'] Hp Hp' Hx Hx' E;
    simpl in *.
  - now split.
  - destruct Hx as (c & Hc & Hpc). subst x. simpl in Hc. injection Hc as <-.
    apply andb_true_iff in Hp'. destruct Hp' as [Ha _]. congruence.
  - destruct Hx' as (c & Hc & Hpc). subst x'. simpl in Hc. injection Hc as <-.
    apply andb_true_iff in Hp. destruct Hp as [Ha _]. congruence.
  - injection E as <- E. apply andb_true_iff in Hp, Hp'.
    destruct (IH pre') as [-> ->]; tauto.
Qed.

Lemma word_end_unique (w w' rest rest' : string) :
  all_chars (fun c => negb (Py.isspace c)) w = true ->
  all_chars (fun c => negb (Py.isspace c)) w' = true ->
  word_boundary rest -> word_boundary rest' ->
  w ++ rest = w' ++ rest' -> w = w' /\ rest = rest'.
Proof.
  revert w'. induction w as [|a w IH]; intros [|a' w'] Hw Hw' Hb Hb' E;
    simpl in *.
  - now split.
  - subst rest. simpl in Hb. apply andb_true_iff in Hw'.
    destruct Hw' as [Ha _]. rewrite Hb in Ha. discriminate.
  - subst rest'. simpl in Hb'. apply andb_true_iff in Hw.
    destruct Hw as [Ha _]. rewrite Hb' in Ha. discriminate.
  - injection E as <- E. apply andb_true_iff in Hw, Hw'.
    destruct (IH w') as [-> ->]; tauto.
Qed.

Lemma word_starts_outside (w rest : string) :
  w <> "" -> all_chars (fun c => negb (Py.isspace c)) w = true ->
  exists c, first_char (w ++ rest) = Some c /\ Py.isspace c = false.
Proof.
  destruct w as [|c w]; [congruence|]. simpl. intros _ H.
  apply andb_true_iff in H. destruct H as [H _]. apply negb_true_iff in H.
  now exists c.
Qed.

Lemma split_on_whitespace_unique (s : string) (ws ws' : list string) :
  split_on_whitespace s ws -> split_on_whitespace s ws' -> ws = ws'.
Proof.
  intros H. revert ws'.
  induction H as [s Hs | pre w rest ws Hpre Hw Hns Hb Hrest IH]; intros ws' H'.
  - apply split_on_whitespace_inv in H'.
    destruct H' as [[-> _] | (p & v & r & ws2 & -> & -> & _ & Hv & Hvn & _)];
      [reflexivity|].
    now apply blank_has_no_word in Hs.
  - apply split_on_whitespace_inv in H'.
    destruct H' as [[_ Hs] |
                    (p & v & r & ws2 & E & -> & Hp & Hv & Hvn & Hr & Hrest')].
    + now apply blank_has_no_word in Hs.
    + apply (run_then_other_unique Py.isspace) in E; trivial;
        try now apply word_starts_outside.
      destruct E as [_ E]. apply word_end_unique in E; trivial.
      destruct E as [<- <-]. f_equal. now apply IH.
Qed.

(** ** [str.strip]: what is cut and what is left *)

Lemma lstrip_spec (s chars : string) :
  exists pre : string,
    s = pre ++ Py.lstrip s chars /\
    all_chars (fun c => Py.char_in c chars) pre = true /\
    (forall c, first_char (Py.lstrip s chars) = Some c ->
               Py.char_in c chars = false).
Proof.
  induction s as [|c s (pre & Heq & Hpre & Hfirst)]; simpl.
  - exists "". split; [|split]; trivial. discriminate.
  - destruct (Py.char_in c chars) eqn:Ec.
    + exists (String c pre). simpl. rewrite Ec, Hpre. now rewrite <- Heq.
    + exists "". split; [|split]; trivial. simpl. now intros d [= <-].
Qed.

Lemma rstrip_spec (s chars : string) :
  exists post : string,
    s = Py.rstrip s chars ++ post /\
    all_chars (fun c => Py.char_in c chars) post = true /\
    (forall c, last_char (Py.rstrip s chars) = Some c ->
               Py.char_in c chars = false).
Proof.
  induction s as [|c s (post & Heq & Hpost & Hlast)]; simpl.
  - exists "". split; [|split]; trivial. discriminate.
  - destruct (Py.rstrip s chars) as [|d r] eqn:Er; simpl.
    + destruct (Py.char_in c chars) eqn:Ec.
      * exists (String c post). simpl in *. rewrite Ec, Hpost.
        now rewrite <- Heq.
      * exists post. simpl in *. subst post.
        split; [|split]; trivial. now intros e [= <-].
    + exists post. simpl in *. rewrite <- Heq. split; [|split]; trivial.
Qed.

(** Cutting the right end leaves the first character in place. *)
Lemma rstrip_first_char (s chars : string) (c : ascii) :
  first_char (Py.rstrip s chars) = Some c -> first_char s = Some c.
Proof.
  destruct s as [|d s]; simpl; [discriminate|].
  destruct (negb (Py.truthy (Py.rstrip s chars)) && Py.char_in d chars);
    simpl; [discriminate | trivial].
Qed.

Lemma strip_spec (w chars : string) : stripped_of chars w (Py.strip w chars).
Proof.
  unfold Py.strip.
  destruct (lstrip_spec w chars) as (pre & Hw & Hpre & Hfirst).
  destruct (rstrip_spec (Py.lstrip w chars) chars)
    as (post & Hl & Hpost & Hlast).
  exists pre, post. split; [|split; [|split; [|split]]]; trivial.
  - now rewrite <- Hl.
  - intros c Hc. apply Hfirst. now apply rstrip_first_char in Hc.
Qed.

(** The relation determines what is left of the word. *)

Lemma no_clean_end_in_run (p : ascii -> bool) (t : string) :
  all_chars p t = true ->
  (forall c, last_char t = Some c -> p c = false) -> t = "".
Proof.
  induction t as [|a t IH]; intros Hall Hlast; [reflexivity|].
  simpl in Hall. apply andb_true_iff in Hall. destruct Hall as [Ha Ht].
  destruct t as [|b t].
  - specialize (Hlast a eq_refl). congruence.
  - discriminate (IH Ht Hlast).
Qed.

Lemma no_clean_start_in_run (p : ascii -> bool) (t : string) :
  all_chars p t = true ->
  (forall c, first_char t = Some c -> p c = false) -> t = "".
Proof.
  destruct t as [|a t]; intros Hall Hfirst; [reflexivity|].
  simpl in Hall. apply andb_true_iff in Hall. destruct Hall as [Ha _].
  specialize (Hfirst a eq_refl). congruence.
Qed.

Lemma other_then_run_unique (p : ascii -> bool) (t t' post post' : string) :
  all_chars p post = true -> all_chars p post' = true ->
  (forall c, last_char t = Some c -> p c = false) ->
  (forall c, last_char t' = Some c -> p c = false) ->
  t ++ post = t' ++ post' -> t = t'.
Proof.
  revert t'. induction t as [|a t IH]; intros [|a' t'] Hp Hp' Ht Ht' E.
  - reflexivity.
  - simpl in E. subst post. change (String a' (t' ++ post'))
      with (String a' t' ++ post') in Hp.
    rewrite all_chars_app in Hp. apply andb_true_iff in Hp.
    symmetry. now apply (no_clean_end_in_run p).
  - simpl in E. subst post'. change (String a (t ++ post))
      with (String a t ++ post) in Hp'.
    rewrite all_chars_app in Hp'. apply andb_true_iff in Hp'.
    now apply (no_clean_end_in_run p).
  - simpl in E. injection E as <- E. f_equal. apply (IH t'); trivial.
    + destruct t; [discriminate | exact Ht].
    + destruct t'; [discriminate | exact Ht'].
Qed.

Lemma stripped_of_unique (chars w t t' : string) :
  stripped_of chars w t -> stripped_of chars w t' -> t = t'.
Proof.
  set (p := fun c => Py.char_in c chars).
  intros (pre & post & E & Hpre & Hpost & Hf & Hl)
         (pre' & post' & E' & Hpre' & Hpost' & Hf' & Hl').
  change (all_chars p pre = true) in Hpre.
  change (all_chars p post = true) in Hpost.
  change (all_chars p pre' = true) in Hpre'.
  change (all_chars p post' = true) in Hpost'.
  assert (Hrun : forall u v x y : string,
             all_chars p (u ++ x ++ v) = true ->
             (forall c, first_char x = Some c -> p c = false) -> x = "").
  { intros u v x _ H. rewrite !all_chars_app, !andb_true_iff in H.
    now apply no_clean_start_in_run. }
  destruct t as [|a t].
  - symmetry. apply (Hrun pre' post' t' ""); trivial.
    rewrite <- E', E. simpl. rewrite all_chars_app. now rewrite Hpre, Hpost.
  - destruct t' as [|a' t'].
    + apply (Hrun pre post (String a t) ""); trivial.
      rewrite <- E, E'. simpl. rewrite all_chars_app. now rewrite Hpre', Hpost'.
    + rewrite E in E'.
      apply (run_then_other_unique p) in E'; trivial.
      * destruct E' as [_ E']. now apply (other_then_run_unique p) in E'.
      * exists a. split; [reflexivity | now apply Hf].
      * exists a'. split; [reflexivity | now apply Hf'].
Qed.

(** ** [clean_all_words]: the loop is a map followed by a filter *)

Lemma clean_all_words_from (punct : string) (words acc : list string) :
  fold_left (clean_step punct) words acc
  = (acc ++ filter Py.truthy (map (fun w => clean_word w punct) words))%list.
Proof.
  revert acc. induction words as [|w words IH]; intros acc; simpl.
  - now rewrite app_nil_r.
  - rewrite IH. unfold clean_step.
    destruct (Py.truthy (clean_word w punct)); trivial.
    now rewrite <- app_assoc.
Qed.

Lemma clean_all_words_eq (words : list string) (punct : string) :
  clean_all_words words punct
  = filter Py.truthy (map (fun w => clean_word w punct) words).
Proof. unfold clean_all_words. now rewrite clean_all_words_from. Qed.

Lemma clean_all_words_clean (words : list string) (punct : string) :
  Forall (clean_token punct) (clean_all_words words punct).
Proof.
  rewrite clean_all_words_eq. apply Forall_forall. intros t Ht.
  apply filter_In in Ht. destruct Ht as [Ht Hne].
  apply in_map_iff in Ht. destruct Ht as (w & <- & _).
  destruct (strip_spec w punct) as (pre & post & _ & _ & _ & Hfirst & Hlast).
  split; [now apply truthy_true_iff | split; assumption].
Qed.

(** The description of the tokenization fixes the token sequence. *)
Lemma tokenized_unique (text chars : string) (tokens tokens' : list string) :
  tokenized text chars tokens -> tokenized text chars tokens' ->
  tokens = tokens'.
Proof.
  intros (raw & stripped & Hraw & Hstrip & ->)
         (raw' & stripped' & Hraw' & Hstrip' & ->).
  rewrite (split_on_whitespace_unique _ _ _ Hraw' Hraw) in Hstrip'.
  f_equal. clear Hraw Hraw'. revert stripped' Hstrip'.
  induction Hstrip as [|w t raw stripped Hwt _ IH]; intros stripped' H';
    inversion H' as [|w' t' raw2 s2 Hwt' Hrest]; subst; [reflexivity|].
  f_equal; [now apply (stripped_of_unique chars w) | now apply IH].
Qed.

Lemma clean_all_words_tokenized (text punct : string) :
  tokenized text punct (clean_all_words (normalize_text text) punct).
Proof.
  exists (normalize_text text),
         (map (fun w => clean_word w punct) (normalize_text text)).
  split; [apply split_spec | split; [|apply clean_all_words_eq]].
  induction (normalize_text text) as [|w ws IH]; simpl; constructor; trivial.
  apply strip_spec.
Qed.

Example clean_word_examples :
  clean_word "(stop)" (punctuation CONFIG) = "stop" /\
  clean_word "don't" (punctuation CONFIG) = "don't" /\
  clean_word "a.b." (punctuation CONFIG) = "a.b" /\
  clean_word "..." (punctuation CONFIG) = "" /\
  clean_word "-x-" (punctuation CONFIG) = "-x-".
Proof. repeat split. Qed.

Example normalize_text_examples :
  normalize_text "  The  CAT sat " = ["the"; "cat"; "sat"] /\
  normalize_text "" = [] /\
  normalize_text "   " = [].
Proof. repeat split. Qed.

(** C4. Tokenization ([normalize_text] followed by [clean_all_words]):
    the tokens are those obtained by lowercasing the text, splitting it on
    whitespace runs, stripping from each word its leading and trailing
    characters of the punctuation string (the interior is kept), and dropping
    the words that become empty, in the order of the text; so no token is
    empty and none begins or ends with a punctuation character. *)
Theorem tokenization_correct (text punct : string) :
  let tokens := clean_all_words (normalize_text text) punct in
  (forall tokens', tokenized text punct tokens' <-> tokens' = tokens) /\
  Forall (clean_token punct) tokens.
Proof.
  intros tokens. split; [|apply clean_all_words_clean].
  intros tokens'. split.
  - intros H. apply (tokenized_unique text punct); trivial.
    apply clean_all_words_tokenized.
  - intros ->. apply clean_all_words_tokenized.
Qed.

Lemma tokenization_correct_witness :
  tokenized "Don't (STOP)  ... now!" (punctuation CONFIG)
            ["don't"; "stop"; "now"].
Proof.
  apply (proj2 (proj1 (tokenization_correct "Don't (STOP)  ... now!"
                                            (punctuation CONFIG)) _)).
  reflexivity.
Defined.

(** ** Lists *)

Lemma str_in_iff (w : string) (l : list string) :
  Py.str_in w l = true <-> In w l.
Proof.
  unfold Py.str_in. rewrite existsb_exists. split.
  - intros (x & Hx & E). apply String.eqb_eq in E. now subst.
  - intros H. exists w. split; [trivial | apply String.eqb_refl].
Qed.

Lemma str_in_app (w : string) (l1 l2 : list string) :
  Py.str_in w (l1 ++ l2) = Py.str_in w l1 || Py.str_in w l2.
Proof. apply existsb_app. Qed.

Lemma filter_twice {A : Type} (f g : A -> bool) (l : list A) :
  filter f (filter g l) = filter (fun x => g x && f x) l.
Proof.
  induction l as [|x l IH]; simpl; [reflexivity|].
  destruct (g x); simpl; [destruct (f x)|]; now rewrite IH.
Qed.

Lemma sum_from (l : list Z) (a : Z) : fold_left Z.add l a = a + Py.sum l.
Proof.
  unfold Py.sum. revert a. induction l as [|x l IH]; intros a; simpl.
  - lia.
  - rewrite (IH (a + x)), (IH x). lia.
Qed.

Lemma sum_cons (x : Z) (l : list Z) : Py.sum (x :: l) = x + Py.sum l.
Proof. unfold Py.sum at 1. simpl. apply sum_from. Qed.

(** ** [first_occurrences] *)

Lemma first_occurrences_In (w : string) (l : list string) :
  In w (first_occurrences l) <-> In w l.
Proof.
  induction l as [|x l IH]; simpl; [tauto|].
  rewrite filter_In, IH. destruct (String.eqb_spec w x) as [->|Hne]; simpl.
  - tauto.
  - split; [tauto|]. intros [E|H]; [now subst | tauto].
Qed.

Lemma first_occurrences_NoDup (l : list string) : NoDup (first_occurrences l).
Proof.
  induction l as [|x l IH]; simpl; constructor.
  - rewrite filter_In, String.eqb_refl. simpl. now intros [_ [=]].
  - now apply NoDup_filter.
Qed.

(** ** The dict operations and the counting loop *)

Lemma keys_set (d : Py.dict) (k : string) (v : Z) :
  Py.keys (Py.set d k v)
  = if Py.str_in k (Py.keys d) then Py.keys d else (Py.keys d ++ [k])%list.
Proof.
  induction d as [|[k' v'] d IH]; simpl; [reflexivity|].
  destruct (String.eqb k k'); simpl; [reflexivity|].
  rewrite IH. now destruct (Py.str_in k (Py.keys d)).
Qed.

Lemma sum_values_set (d : Py.dict) (k : string) (v : Z) :
  Py.sum (Py.values (Py.set d k v))
  = Py.sum (Py.values d) - Py.get d k 0 + v.
Proof.
  unfold Py.values.
  induction d as [|[k' v'] d IH]; cbn [Py.set Py.get map snd].
  - rewrite sum_cons. unfold Py.sum. simpl. lia.
  - destruct (String.eqb k k'); cbn [map snd]; rewrite !sum_cons.
    + lia.
    + rewrite IH. lia.
Qed.

Lemma count_from_sum (words : list string) (d : Py.dict) :
  Py.sum (Py.values (fold_left count_step words d))
  = Py.sum (Py.values d) + Py.len words.
Proof.
  revert d. induction words as [|w words IH]; intros d.
  - unfold Py.len. simpl. lia.
  - cbn [fold_left]. rewrite IH. unfold count_step.
    rewrite sum_values_set. unfold Py.len. cbn [List.length]. lia.
Qed.

Lemma count_from_keys (words : list string) (d : Py.dict) :
  Py.keys (fold_left count_step words d)
  = (Py.keys d
     ++ filter (fun w => negb (Py.str_in w (Py.keys d)))
               (first_occurrences words))%list.
Proof.
  revert d. induction words as [|x words IH]; intros d.
  - simpl. now rewrite app_nil_r.
  - cbn [fold_left first_occurrences filter]. rewrite IH. unfold count_step.
    rewrite keys_set. destruct (Py.str_in x (Py.keys d)) eqn:Ex; simpl.
    + f_equal. rewrite filter_twice. apply filter_ext_in. intros y _.
      destruct (String.eqb_spec y x) as [->|]; simpl;
        [now rewrite Ex | trivial].
    + rewrite <- app_assoc. simpl. do 2 f_equal.
      rewrite filter_twice. apply filter_ext. intros y.
      rewrite str_in_app. simpl. rewrite orb_false_r, negb_orb.
      apply andb_comm.
Qed.

Lemma count_keys (words : list string) :
  Py.keys (count_word_frequencies words) = first_occurrences words.
Proof.
  unfold count_word_frequencies. rewrite count_from_keys. simpl.
  apply filter_true.
Qed.

Lemma count_sum (words : list string) :
  Py.sum (Py.values (count_word_frequencies words)) = Py.len words.
Proof. unfold count_word_frequencies. now rewrite count_from_sum. Qed.

Lemma count_keys_NoDup (words : list string) :
  NoDup (Py.keys (count_word_frequencies words)).
Proof. rewrite count_keys. apply first_occurrences_NoDup. Qed.

Lemma count_keys_In (w : string) (words : list string) :
  In w (Py.keys (count_word_frequencies words)) <-> In w words.
Proof. rewrite count_keys. apply first_occurrences_In. Qed.

(** The fields of the result, in terms of the stages. *)
Lemma process_text_counts (text : string) (config : Config) :
  counts (process_text text config)
  = count_word_frequencies (filtered_words text config).
Proof. reflexivity. Qed.

Lemma process_text_top_words (text : string) (config : Config) :
  top_words (process_text text config)
  = get_top_words (sort_words_by_frequency (counts (process_text text config)))
                  (top_n config).
Proof. reflexivity. Qed.

(** C1. In the result of [process_text], [total_words] is the number of
    tokens left after stopword filtering, it is the sum of the values of
    [counts], and [unique_words] is the number of distinct keys of [counts]. *)
Theorem result_totals (text : string) (config : Config) :
  let r := process_text text config in
  total_words r = Py.len (filtered_words text config) /\
  total_words r = Py.sum (Py.values (counts r)) /\
  unique_words r = Py.len (nodup string_dec (Py.keys (counts r))).
Proof.
  intros r. split; [|split].
  - apply count_sum.
  - reflexivity.
  - subst r. rewrite process_text_counts.
    rewrite (nodup_fixed_point string_dec)
      by apply count_keys_NoDup.
    unfold Py.keys, Py.len. cbn [unique_words process_text build_result_dict].
    unfold Py.len. now rewrite length_map.
Qed.

(** ** [sorted(..., reverse=True)]: a stable descending arrangement *)

Section SortedReverse.

Context {A : Type} (key : A -> Z).

Lemma insert_desc_perm (x : A) (l : list A) :
  Permutation (x :: l) (Py.insert_desc key x l).
Proof.
  induction l as [|y l IH]; simpl; [apply Permutation_refl|].
  destruct (key x <? key y).
  - apply perm_trans with (y :: x :: l); [apply perm_swap|].
    now apply perm_skip.
  - apply Permutation_refl.
Qed.

Lemma sorted_reverse_perm (l : list A) :
  Permutation l (Py.sorted_reverse key l).
Proof.
  induction l as [|x l IH]; simpl; [apply perm_nil|].
  apply perm_trans with (x :: Py.sorted_reverse key l).
  - now apply perm_skip.
  - apply insert_desc_perm.
Qed.

Lemma insert_desc_sorted (x : A) (l : list A) :
  StronglySorted (desc_by key) l ->
  StronglySorted (desc_by key) (Py.insert_desc key x l).
Proof.
  induction 1 as [|y l Hl IH Hy]; simpl.
  - repeat constructor.
  - destruct (Z.ltb_spec (key x) (key y)) as [Hlt|Hge].
    + constructor; trivial.
      apply Forall_forall. intros z Hz.
      apply (Permutation_in _ (Permutation_sym (insert_desc_perm x l))) in Hz.
      destruct Hz as [<-|Hz]; [unfold desc_by; lia|].
      now apply (proj1 (Forall_forall _ _) Hy).
    + constructor; [now constructor|].
      constructor; [exact Hge|].
      apply Forall_forall. intros z Hz.
      apply (proj1 (Forall_forall _ _) Hy) in Hz. unfold desc_by in *. lia.
Qed.

Lemma sorted_reverse_sorted (l : list A) :
  StronglySorted (desc_by key) (Py.sorted_reverse key l).
Proof.
  induction l as [|x l IH]; simpl; [constructor|].
  now apply insert_desc_sorted.
Qed.

(** Stability: the elements with a given key keep their order. *)
Lemma insert_desc_same_key (c : Z) (x : A) (l : list A) :
  filter (fun y => key y =? c) (Py.insert_desc key x l)
  = filter (fun y => key y =? c) (x :: l).
Proof.
  induction l as [|y l IH]; [reflexivity|].
  cbn [Py.insert_desc]. destruct (Z.ltb_spec (key x) (key y)) as [Hlt|Hge];
    [|reflexivity].
  cbn [filter] in *. rewrite IH.
  destruct (Z.eqb_spec (key y) c), (Z.eqb_spec (key x) c); trivial. lia.
Qed.

Lemma sorted_reverse_stable (c : Z) (l : list A) :
  filter (fun y => key y =? c) (Py.sorted_reverse key l)
  = filter (fun y => key y =? c) l.
Proof.
  induction l as [|x l IH]; [reflexivity|].
  cbn [Py.sorted_reverse]. rewrite insert_desc_same_key.
  cbn [filter]. now rewrite IH.
Qed.



Lemma sorted_prefix_dominates (l1 l2 : list A) :
  StronglySorted (desc_by key) (l1 ++ l2) ->
  forall x y, In x l1 -> In y l2 -> key y <= key x.
Proof.
  induction l1 as [|a l1 IH]; intros H x y Hx Hy; [destruct Hx|].
  simpl in H. apply StronglySorted_inv in H. destruct H as [Hs Ha].
  destruct Hx as [<-|Hx].
  - apply (proj1 (Forall_forall _ _) Ha). apply in_or_app. now right.
  - now apply IH.
Qed.

End SortedReverse.

(** ** Slices *)

(** Every slice [l[:n]] is a prefix of [l]. *)
Lemma slice_to_prefix {A : Type} (l : list A) (n : Z) :
  exists k : nat, Py.slice_to l n = firstn k l.
Proof. unfold Py.slice_to. destruct (n <? 0); eexists; reflexivity. Qed.

Lemma top_words_prefix (text : string) (config : Config) :
  exists k : nat,
    top_words (process_text text config)
    = firstn k (sort_words_by_frequency (counts (process_text text config))).
Proof. rewrite process_text_top_words. apply slice_to_prefix. Qed.

Lemma firstn_sorted {A : Type} (R : A -> A -> Prop) (k : nat) (l : list A) :
  StronglySorted R l -> StronglySorted R (firstn k l).
Proof.
  intros H. revert k. induction H as [|x l Hl IH Hx]; intros [|k]; simpl;
    try constructor.
  - apply IH.
  - apply Forall_forall. intros y Hy. apply (proj1 (Forall_forall _ _) Hx).
    rewrite <- (firstn_skipn k l). apply in_or_app. now left.
Qed.

(** C3. The ranked list of the result is sorted by count, non-increasing,
    and no entry of [counts] that is missing from the ranked list has a count
    greater than a count in the ranked list (so none exceeds its minimum). *)
Theorem rank_correct (text : string) (config : Config) :
  let r := process_text text config in
  count_non_increasing (top_words r) /\
  forall p q : string * Z,
    In p (Py.items (counts r)) -> ~ In p (top_words r) ->
    In q (top_words r) -> snd p <= snd q.
Proof.
  intros r. destruct (top_words_prefix text config) as [k Hk]. fold r in Hk.
  pose proof (sorted_reverse_sorted snd (Py.items (counts r))) as Hs.
  fold (sort_words_by_frequency (counts r)) in Hs.
  split.
  - rewrite Hk. now apply firstn_sorted.
  - intros p q Hp Hnp Hq. rewrite Hk in Hnp, Hq.
    rewrite <- (firstn_skipn k (sort_words_by_frequency (counts r))) in Hs.
    apply (sorted_prefix_dominates snd _ _ Hs q p Hq).
    apply (Permutation_in _ (sorted_reverse_perm snd _)) in Hp.
    fold (sort_words_by_frequency (counts r)) in Hp.
    rewrite <- (firstn_skipn k (sort_words_by_frequency (counts r))) in Hp.
    apply in_app_or in Hp. tauto.
Qed.

Lemma rank_correct_witness :
  let r := process_text "b a b c a b" (mkConfig [] "" 2 "*" 15 3) in
  In ("c", 1) (Py.items (counts r)) /\
  ~ In ("c", 1) (top_words r) /\
  In ("a", 2) (top_words r) /\
  1 <= 2.
Proof.
  intros r.
  assert (Hp : In ("c", 1) (Py.items (counts r))) by (vm_compute; tauto).
  assert (Hq : In ("a", 2) (top_words r)) by (vm_compute; tauto).
  assert (Hn : ~ In ("c", 1) (top_words r)).
  { vm_compute. intros [H|[H|[]]]; discriminate H. }
  repeat split; trivial.
  exact (proj2 (rank_correct "b a b c a b" (mkConfig [] "" 2 "*" 15 3))
               ("c", 1) ("a", 2) Hp Hn Hq).
Defined.

(** ** Stopwords *)

Lemma filter_stopwords_In (w : string) (words stops : list string) :
  In w (filter_stopwords words stops)
  <-> In w words /\ w <> "" /\ ~ In w stops.
Proof.
  unfold filter_stopwords. rewrite filter_In, andb_true_iff, negb_true_iff.
  rewrite truthy_true_iff, <- not_true_iff_false, str_in_iff. tauto.
Qed.

(** C5. No stopword of the configuration is a key of [counts] in the
    result of [process_text]. *)
Theorem stopwords_never_counted (text : string) (config : Config) (w : string) :
  In w (stopwords config) ->
  ~ In w (Py.keys (counts (process_text text config))).
Proof.
  intros Hw Hk. rewrite process_text_counts, count_keys_In in Hk.
  unfold filtered_words in Hk. apply filter_stopwords_In in Hk. tauto.
Qed.

Lemma stopwords_never_counted_witness :
  In "the" (stopwords CONFIG) /\
  ~ In "the" (Py.keys (counts (process_text "The cat and the hat" CONFIG))).
Proof.
  assert (H : In "the" (stopwords CONFIG)) by (simpl; tauto).
  split; [exact H | exact (stopwords_never_counted _ _ _ H)].
Defined.

(** ** The length of the ranked list *)

Lemma sort_words_length (d : Py.dict) :
  List.length (sort_words_by_frequency d) = List.length d.
Proof.
  symmetry. apply Permutation_length. apply (sorted_reverse_perm snd).
Qed.

Lemma slice_to_nonneg {A : Type} (l : list A) (n : Z) :
  0 <= n -> Py.slice_to l n = firstn (Z.to_nat n) l.
Proof.
  intros Hn. unfold Py.slice_to.
  destruct (Z.ltb_spec n 0); [lia | reflexivity].
Qed.

(** C6. With a positive limit, the ranked list is no longer than the limit
    and no longer than the number of distinct tokens; when there are fewer
    distinct tokens than the limit, the ranked list is the whole sorted list
    of entries, one per distinct token. *)
Theorem ranked_list_length (text : string) (config : Config) :
  0 < top_n config ->
  let r := process_text text config in
  Py.len (top_words r) <= top_n config /\
  Py.len (top_words r) <= unique_words r /\
  (unique_words r < top_n config ->
   top_words r = sort_words_by_frequency (counts r) /\
   Py.len (top_words r) = unique_words r).
Proof.
  intros Hn r.
  assert (Htop : top_words r
                 = firstn (Z.to_nat (top_n config))
                          (sort_words_by_frequency (counts r))).
  { subst r. rewrite process_text_top_words. unfold get_top_words.
    apply slice_to_nonneg. lia. }
  assert (Hu : unique_words r = Py.len (sort_words_by_frequency (counts r))).
  { unfold Py.len. now rewrite sort_words_length. }
  rewrite Htop, Hu. unfold Py.len. rewrite length_firstn.
  split; [lia | split; [lia|]]. intros Hlt.
  rewrite firstn_all2 by lia. split; [reflexivity | lia].
Qed.

Lemma ranked_list_length_witness :
  let r := process_text "b a b c a b" (mkConfig [] "" 2 "*" 15 3) in
  Py.len (top_words r) <= 2 /\
  Py.len (top_words r) <= unique_words r /\
  (unique_words r < 2 ->
   top_words r = sort_words_by_frequency (counts r) /\
   Py.len (top_words r) = unique_words r).
Proof.
  apply (ranked_list_length "b a b c a b" (mkConfig [] "" 2 "*" 15 3)).
  simpl. lia.
Defined.

(** C10. A negative limit [-k] raises no error: [get_top_words] returns
    the list without its last [k] entries, and the empty list when [k] is at
    least the length of the list. *)
Theorem negative_limit_drops_tail (sorted_words : list (string * Z)) (k : Z) :
  0 < k ->
  (exists removed : list (string * Z),
     sorted_words = (get_top_words sorted_words (- k) ++ removed)%list /\
     Py.len removed = Z.min k (Py.len sorted_words)) /\
  (Py.len sorted_words <= k -> get_top_words sorted_words (- k) = []).
Proof.
  intros Hk. unfold get_top_words, Py.slice_to.
  destruct (Z.ltb_spec (- k) 0) as [_|]; [|lia].
  set (n := Z.to_nat (Z.max 0 (Py.len sorted_words + - k))). split.
  - exists (skipn n sorted_words). split.
    + symmetry. apply firstn_skipn.
    + unfold Py.len in *. rewrite length_skipn. lia.
  - intros Hle. replace n with O by (unfold Py.len in *; lia). reflexivity.
Qed.

Lemma negative_limit_drops_tail_witness :
  get_top_words [("cat", 2); ("sat", 1); ("mat", 1)] (- 2) = [("cat", 2)] /\
  get_top_words [("cat", 2); ("sat", 1); ("mat", 1)] (- 3) = [].
Proof.
  split; [reflexivity|].
  apply (negative_limit_drops_tail [("cat", 2); ("sat", 1); ("mat", 1)] 3);
    unfold Py.len; simpl; lia.
Defined.

(** ** Runs without tokens *)

Lemma slice_to_nil {A : Type} (n : Z) : Py.slice_to (@nil A) n = [].
Proof. unfold Py.slice_to. destruct (n <? 0); apply firstn_nil. Qed.

Lemma no_tokens_empty_result (text : string) (config : Config) :
  filtered_words text config = [] -> process_text text config = empty_result.
Proof.
  intros H. unfold process_text. fold (filtered_words text config).
  rewrite H. change (count_word_frequencies []) with (@nil (string * Z)).
  change (sort_words_by_frequency []) with (@nil (string * Z)).
  unfold get_top_words. now rewrite slice_to_nil.
Qed.

Lemma only_stopwords_filtered (text : string) (config : Config) :
  only_stopwords text config -> filtered_words text config = [].
Proof.
  unfold only_stopwords, filtered_words, filter_stopwords.
  induction 1 as [|w ws Hw _ IH]; simpl; [reflexivity|].
  apply str_in_iff in Hw. rewrite Hw, andb_false_r. exact IH.
Qed.

(** C7. A run that leaves no token is not an error: [process_text] returns
    the result with [total_words = 0], [unique_words = 0], an empty [counts]
    and an empty ranked list, for the empty text, for every text whose
    tokens are all stopwords, and so for the text "the a an" under the
    default configuration. *)
Theorem zero_tokens_no_error :
  (forall config, process_text "" config = empty_result) /\
  (forall text config,
     only_stopwords text config -> process_text text config = empty_result) /\
  process_text "the a an" CONFIG = empty_result.
Proof.
  split; [|split].
  - intros config. now apply no_tokens_empty_result.
  - intros text config H.
    now apply no_tokens_empty_result, only_stopwords_filtered.
  - reflexivity.
Qed.

Lemma zero_tokens_no_error_witness :
  only_stopwords "The AND, (of) a." CONFIG /\
  process_text "The AND, (of) a." CONFIG = empty_result.
Proof.
  assert (H : only_stopwords "The AND, (of) a." CONFIG).
  { unfold only_stopwords. vm_compute clean_all_words.
    repeat constructor; simpl; tauto. }
  split; [exact H|].
  exact (proj1 (proj2 zero_tokens_no_error) "The AND, (of) a." CONFIG H).
Defined.

(** ** The scenario of the specification *)

(** C2. The text "The cat sat on the mat. The cat ran." under the default
    configuration: the filtered tokens are cat, sat, mat, cat, ran; [counts]
    is cat:2, sat:1, mat:1, ran:1; [total_words] is 5, [unique_words] is 4,
    and the ranked list starts with (cat, 2). *)
Theorem scenario_cat_sat_mat :
  let text := "The cat sat on the mat. The cat ran." in
  let r := process_text text CONFIG in
  (In "the" (stopwords CONFIG) /\ In "on" (stopwords CONFIG) /\
   punctuation CONFIG = ".,!?;:" ++ String dquote "()[]" /\
   top_n CONFIG = 10) /\
  filtered_words text CONFIG = ["cat"; "sat"; "mat"; "cat"; "ran"] /\
  counts r = [("cat", 2); ("sat", 1); ("mat", 1); ("ran", 1)] /\
  total_words r = 5 /\
  unique_words r = 4 /\
  hd_error (top_words r) = Some ("cat", 2).
Proof.
  cbv zeta. repeat split; try reflexivity; simpl; tauto.
Qed.

(** ** Two runs *)

(** Stores that grow: what is in the store stays where it is. *)

Lemma nth_error_last (s : Heap.store) (o : Heap.obj) :
  nth_error (s ++ [o]) (List.length s) = Some o.
Proof. now rewrite nth_error_app2, Nat.sub_diag by apply Nat.le_refl. Qed.

Lemma nth_error_grow (s l : Heap.store) (r : Heap.ref) (o : Heap.obj) :
  nth_error s r = Some o -> nth_error (s ++ l) r = Some o.
Proof.
  intros H. rewrite nth_error_app1; [exact H|].
  apply nth_error_Some. congruence.
Qed.

Lemma put_last (s : Heap.store) (o o' : Heap.obj) :
  Heap.put (List.length s) o' (s ++ [o])%list = (s ++ [o'])%list.
Proof.
  unfold Heap.put. rewrite firstn_app, Nat.sub_diag, firstn_all.
  rewrite skipn_all2 by (rewrite length_app; simpl; apply Nat.eq_le_incl;
                         now rewrite Nat.add_1_r).
  simpl. now rewrite app_nil_r.
Qed.

Lemma config_value_grow (s l : Heap.store) (c : Heap.ref) (cfg : Config) :
  Heap.config_value s c = Some cfg ->
  Heap.config_value (s ++ l)%list c = Some cfg.
Proof.
  unfold Heap.config_value.
  destruct (nth_error s c) as [[| | |st p n b ww cw|]|] eqn:Ec;
    try discriminate.
  destruct (nth_error s st) as [[stops| | | |]|] eqn:Est; try discriminate.
  intros H.
  now rewrite (nth_error_grow _ l _ _ Ec), (nth_error_grow _ l _ _ Est).
Qed.

Lemma result_value_grow (s l : Heap.store) (r : Heap.ref) (v : Result) :
  Heap.result_value s r = Some v -> Heap.result_value (s ++ l)%list r = Some v.
Proof.
  unfold Heap.result_value.
  destruct (nth_error s r) as [[| | | |c t total unique]|] eqn:Er;
    try discriminate.
  destruct (nth_error s c) as [[| |d| |]|] eqn:Ec; try discriminate.
  destruct (nth_error s t) as [[|l'| | |]|] eqn:Et; try discriminate.
  intros H.
  now rewrite (nth_error_grow _ l _ _ Er), (nth_error_grow _ l _ _ Ec),
    (nth_error_grow _ l _ _ Et).
Qed.

(** The loops fill the object they have allocated, and nothing else. *)

Lemma clean_loop (punct : string) (ws : list string) :
  forall (s : Heap.store) (acc : list string),
    Heap.for_each ws
      (fun word =>
         let cleaned := clean_word word punct in
         if Py.truthy cleaned
         then Heap.list_append (List.length s) cleaned
         else Heap.ret tt)
      (s ++ [Heap.OList acc])%list
    = Some (tt, (s ++ [Heap.OList (fold_left (clean_step punct) ws acc)])%list).
Proof.
  induction ws as [|w ws IH]; intros s acc; [reflexivity|].
  cbn [Heap.for_each fold_left]. unfold Heap.bind at 1. cbv zeta.
  unfold clean_step at 2. cbv zeta.
  destruct (Py.truthy (clean_word w punct)).
  - unfold Heap.list_append at 1. rewrite nth_error_last, put_last. apply IH.
  - unfold Heap.ret at 1. apply IH.
Qed.

Lemma count_loop (ws : list string) :
  forall (s : Heap.store) (d : Py.dict),
    Heap.for_each ws
      (fun word =>
         Heap.bind (Heap.dict_get (List.length s) word 0)
                   (fun v => Heap.dict_set (List.length s) word (v + 1)))
      (s ++ [Heap.ODict d])%list
    = Some (tt, (s ++ [Heap.ODict (fold_left count_step ws d)])%list).
Proof.
  induction ws as [|w ws IH]; intros s d; [reflexivity|].
  cbn [Heap.for_each fold_left]. unfold Heap.bind at 1 2.
  unfold Heap.dict_get at 1. rewrite nth_error_last.
  unfold Heap.dict_set at 1. rewrite nth_error_last, put_last. apply IH.
Qed.

(** Each function allocates one object, which holds what the function of
    the pipeline computes from the contents of its arguments. *)

Lemma heap_normalize_text (text : string) (s : Heap.store) :
  allocates (Heap.normalize_text text) s (Heap.OList (normalize_text text)).
Proof. reflexivity. Qed.

Lemma heap_clean_all_words (s : Heap.store) (words : Heap.ref)
    (ws : list string) (punct : string) :
  nth_error s words = Some (Heap.OList ws) ->
  allocates (Heap.clean_all_words words punct) s
            (Heap.OList (clean_all_words ws punct)).
Proof.
  intros Hw. unfold allocates, Heap.clean_all_words, Heap.bind, Heap.alloc,
    Heap.get_list.
  rewrite (nth_error_grow _ _ _ _ Hw), clean_loop. reflexivity.
Qed.

Lemma heap_filter_stopwords (s : Heap.store) (words st : Heap.ref)
    (ws stops : list string) :
  nth_error s words = Some (Heap.OList ws) ->
  nth_error s st = Some (Heap.OList stops) ->
  allocates (Heap.filter_stopwords words st) s
            (Heap.OList (filter_stopwords ws stops)).
Proof.
  intros Hw Hs. unfold allocates, Heap.filter_stopwords, Heap.bind,
    Heap.get_list. now rewrite Hw, Hs.
Qed.

Lemma heap_count_word_frequencies (s : Heap.store) (words : Heap.ref)
    (ws : list string) :
  nth_error s words = Some (Heap.OList ws) ->
  allocates (Heap.count_word_frequencies words) s
            (Heap.ODict (count_word_frequencies ws)).
Proof.
  intros Hw. unfold allocates, Heap.count_word_frequencies, Heap.bind at 1 2 3,
    Heap.alloc, Heap.get_list.
  rewrite (nth_error_grow _ _ _ _ Hw), count_loop. reflexivity.
Qed.

Lemma heap_sort_words_by_frequency (s : Heap.store) (counts : Heap.ref)
    (d : Py.dict) :
  nth_error s counts = Some (Heap.ODict d) ->
  allocates (Heap.sort_words_by_frequency counts) s
            (Heap.OPairs (sort_words_by_frequency d)).
Proof.
  intros H. unfold allocates, Heap.sort_words_by_frequency, Heap.bind,
    Heap.get_dict. now rewrite H.
Qed.

Lemma heap_get_top_words (s : Heap.store) (sorted : Heap.ref)
    (l : list (string * Z)) (n : Z) :
  nth_error s sorted = Some (Heap.OPairs l) ->
  allocates (Heap.get_top_words sorted n) s (Heap.OPairs (get_top_words l n)).
Proof.
  intros H. unfold allocates, Heap.get_top_words, Heap.bind, Heap.get_pairs.
  now rewrite H.
Qed.

Lemma heap_build_result_dict (s : Heap.store) (counts top : Heap.ref)
    (d : Py.dict) :
  nth_error s counts = Some (Heap.ODict d) ->
  allocates (Heap.build_result_dict counts top) s
            (Heap.OResult counts top (Py.sum (Py.values d)) (Py.len d)).
Proof.
  intros H. unfold allocates, Heap.build_result_dict, Heap.bind,
    Heap.get_dict. now rewrite H.
Qed.

(** A run of [process_text] leaves the store it found as it was, adds seven
    objects to it, and returns the last of them, the result dict, which
    holds what the pipeline computes from the text and from the contents of
    the configuration. *)
Lemma heap_process_text (text : string) (s : Heap.store) (c : Heap.ref)
    (cfg : Config) :
  Heap.config_value s c = Some cfg ->
  exists new : Heap.store,
    Heap.process_text text c s = Some ((List.length s + 6)%nat, (s ++ new)%list)
    /\ List.length new = 7%nat
    /\ Heap.result_value (s ++ new)%list (List.length s + 6)%nat
       = Some (process_text text cfg).
Proof.
  unfold Heap.config_value.
  destruct (nth_error s c) as [[| | |st p n b ww cw|]|] eqn:Ec;
    try discriminate.
  destruct (nth_error s st) as [[stops| | | |]|] eqn:Est; try discriminate.
  intros [= <-].
  set (words := normalize_text text).
  set (cleaned := clean_all_words words p).
  set (filtered := filter_stopwords cleaned stops).
  set (counts := count_word_frequencies filtered).
  set (sorted := sort_words_by_frequency counts).
  set (top := get_top_words sorted n).
  set (s1 := (s ++ [Heap.OList words])%list).
  set (s2 := (s1 ++ [Heap.OList cleaned])%list).
  set (s3 := (s2 ++ [Heap.OList filtered])%list).
  set (s4 := (s3 ++ [Heap.ODict counts])%list).
  set (s5 := (s4 ++ [Heap.OPairs sorted])%list).
  set (s6 := (s5 ++ [Heap.OPairs top])%list).
  set (res := Heap.OResult (List.length s3) (List.length s5)
                           (Py.sum (Py.values counts)) (Py.len counts)).
  assert (L1 : List.length s1 = (List.length s + 1)%nat)
    by (unfold s1; now rewrite length_app).
  assert (L2 : List.length s2 = (List.length s + 2)%nat)
    by (unfold s2; rewrite length_app, L1; simpl; lia).
  assert (L3 : List.length s3 = (List.length s + 3)%nat)
    by (unfold s3; rewrite length_app, L2; simpl; lia).
  assert (L4 : List.length s4 = (List.length s + 4)%nat)
    by (unfold s4; rewrite length_app, L3; simpl; lia).
  assert (L5 : List.length s5 = (List.length s + 5)%nat)
    by (unfold s5; rewrite length_app, L4; simpl; lia).
  assert (L6 : List.length s6 = (List.length s + 6)%nat)
    by (unfold s6; rewrite length_app, L5; simpl; lia).
  assert (Hc1 : nth_error s1 c = Some (Heap.OConfig st p n b ww cw))
    by now apply nth_error_grow.
  assert (Hc2 : nth_error s2 c = Some (Heap.OConfig st p n b ww cw))
    by now apply nth_error_grow.
  assert (Hc5 : nth_error s5 c = Some (Heap.OConfig st p n b ww cw))
    by now repeat apply nth_error_grow.
  assert (Hst2 : nth_error s2 st = Some (Heap.OList stops))
    by now repeat apply nth_error_grow.
  assert (Hrun : Heap.process_text text c s
                 = Some (List.length s6, (s6 ++ [res])%list)).
  { unfold Heap.process_text.
    unfold Heap.bind at 1. rewrite heap_normalize_text. fold words s1.
    unfold Heap.bind at 1, Heap.config_punctuation. rewrite Hc1.
    unfold Heap.bind at 1.
    rewrite (heap_clean_all_words s1 (List.length s) words p)
      by apply nth_error_last.
    fold cleaned s2.
    unfold Heap.bind at 1, Heap.config_stopwords. rewrite Hc2.
    unfold Heap.bind at 1.
    rewrite (heap_filter_stopwords s2 (List.length s1) st cleaned stops);
      [| apply nth_error_last | exact Hst2].
    fold filtered s3.
    unfold Heap.bind at 1.
    rewrite (heap_count_word_frequencies s3 (List.length s2) filtered)
      by apply nth_error_last.
    fold counts s4.
    unfold Heap.bind at 1.
    rewrite (heap_sort_words_by_frequency s4 (List.length s3) counts)
      by apply nth_error_last.
    fold sorted s5.
    unfold Heap.bind at 1, Heap.config_top_n. rewrite Hc5.
    unfold Heap.bind at 1.
    rewrite (heap_get_top_words s5 (List.length s4) sorted n)
      by apply nth_error_last.
    fold top s6.
    rewrite (heap_build_result_dict s6 (List.length s3) (List.length s5)
               counts).
    - reflexivity.
    - unfold s6, s5. rewrite <- app_assoc. apply nth_error_grow.
      apply nth_error_last. }
  exists [Heap.OList words; Heap.OList cleaned; Heap.OList filtered;
          Heap.ODict counts; Heap.OPairs sorted; Heap.OPairs top; res].
  assert (E : (s ++ [Heap.OList words; Heap.OList cleaned;
                     Heap.OList filtered; Heap.ODict counts;
                     Heap.OPairs sorted; Heap.OPairs top; res])%list
              = (s6 ++ [res])%list).
  { unfold s6, s5, s4, s3, s2, s1. now rewrite <- !app_assoc. }
  rewrite E, <- L6. split; [exact Hrun | split; [reflexivity|]].
  unfold Heap.result_value. rewrite nth_error_last. unfold res.
  assert (H3 : nth_error (s6 ++ [res]) (List.length s3)
               = Some (Heap.ODict counts)).
  { unfold s6, s5. rewrite <- !app_assoc. apply nth_error_grow.
    apply nth_error_last. }
  assert (H5 : nth_error (s6 ++ [res]) (List.length s5)
               = Some (Heap.OPairs top)).
  { apply nth_error_grow. apply nth_error_last. }
  fold res. rewrite H3, H5. reflexivity.
Qed.

(** C8. Two runs of the pipeline on the same text and on configurations
    with the same contents give results that are identical in every field
    ([counts], [top_words] with its order, [total_words], [unique_words]),
    in whatever stores the runs start and wherever their objects are
    allocated.  In particular, when the second run starts in the store that
    the first has left, with the same configuration object: the
    configuration has not been changed by the first run, the second run
    builds a result object of its own, and it leaves the result of the
    first run as it was. *)
Theorem two_runs_identical (text : string) (cfg : Config) :
  (forall (s s' : Heap.store) (c c' : Heap.ref),
     Heap.config_value s c = Some cfg ->
     Heap.config_value s' c' = Some cfg ->
     exists r1 s1 r2 s2 v1 v2,
       Heap.process_text text c s = Some (r1, s1) /\
       Heap.process_text text c' s' = Some (r2, s2) /\
       Heap.result_value s1 r1 = Some v1 /\
       Heap.result_value s2 r2 = Some v2 /\
       counts v1 = counts v2 /\ top_words v1 = top_words v2 /\
       total_words v1 = total_words v2 /\
       unique_words v1 = unique_words v2) /\
  (forall (s : Heap.store) (c : Heap.ref),
     Heap.config_value s c = Some cfg ->
     exists r1 s1 r2 s2 v,
       Heap.process_text text c s = Some (r1, s1) /\
       Heap.config_value s1 c = Some cfg /\
       Heap.process_text text c s1 = Some (r2, s2) /\
       r1 <> r2 /\
       Heap.result_value s1 r1 = Some v /\
       Heap.result_value s2 r1 = Some v /\
       Heap.result_value s2 r2 = Some v /\
       Heap.config_value s2 c = Some cfg).
Proof.
  split.
  - intros s s' c c' Hc Hc'.
    destruct (heap_process_text text s c cfg Hc) as (new & Hrun & _ & Hv).
    destruct (heap_process_text text s' c' cfg Hc') as (new' & Hrun' & _ & Hv').
    exists (List.length s + 6)%nat, (s ++ new)%list,
           (List.length s' + 6)%nat, (s' ++ new')%list,
           (process_text text cfg), (process_text text cfg).
    repeat split; trivial.
  - intros s c Hc.
    destruct (heap_process_text text s c cfg Hc) as (new & Hrun & Hlen & Hv).
    pose proof (config_value_grow s new c cfg Hc) as Hc1.
    destruct (heap_process_text text (s ++ new)%list c cfg Hc1)
      as (new' & Hrun' & _ & Hv').
    exists (List.length s + 6)%nat, (s ++ new)%list,
           (List.length (s ++ new)%list + 6)%nat, ((s ++ new) ++ new')%list,
           (process_text text cfg).
    repeat split; trivial.
    + rewrite length_app, Hlen. lia.
    + now apply result_value_grow.
    + now apply config_value_grow.
Qed.

Lemma two_runs_identical_witness :
  exists r1 s1 r2 s2 v,
    Heap.process_text "to be or not to be, that is the question"
                      Heap.CONFIG_ref Heap.module_store = Some (r1, s1) /\
    Heap.config_value s1 Heap.CONFIG_ref = Some CONFIG /\
    Heap.process_text "to be or not to be, that is the question"
                      Heap.CONFIG_ref s1 = Some (r2, s2) /\
    r1 <> r2 /\
    Heap.result_value s1 r1 = Some v /\
    Heap.result_value s2 r1 = Some v /\
    Heap.result_value s2 r2 = Some v /\
    Heap.config_value s2 Heap.CONFIG_ref = Some CONFIG.
Proof.
  apply (proj2 (two_runs_identical
                  "to be or not to be, that is the question" CONFIG)
               Heap.module_store Heap.CONFIG_ref).
  reflexivity.
Defined.

(** ** The order of entries with equal counts *)

Section Precedes.

Context {A : Type}.
Implicit Types (a b : A) (l : list A).

Lemma precedes_In a b l : precedes a b l -> In a l /\ In b l.
Proof.
  induction 1 as [l Hb | x l _ [Ha Hb]]; simpl; tauto.
Qed.

Lemma precedes_nth_error l : forall (i j : nat) a b,
  (i < j)%nat -> nth_error l i = Some a -> nth_error l j = Some b ->
  precedes a b l.
Proof.
  induction l as [|x l IH]; intros i j a b Hij Hi Hj.
  - now destruct i.
  - destruct j as [|j]; [lia|]. destruct i as [|i]; simpl in Hi, Hj.
    + injection Hi as ->. apply precedes_here.
      now apply nth_error_In with j.
    + apply precedes_later. apply (IH i j); trivial. lia.
Qed.

Lemma precedes_app_l a b l l' : precedes a b l -> precedes a b (l ++ l').
Proof.
  induction 1 as [l Hb | x l _ IH]; simpl.
  - apply precedes_here. apply in_or_app. now left.
  - now apply precedes_later.
Qed.

Lemma precedes_firstn a b (k : nat) l :
  precedes a b (firstn k l) -> precedes a b l.
Proof.
  intros H. rewrite <- (firstn_skipn k l). now apply precedes_app_l.
Qed.

Lemma precedes_filter (p : A -> bool) a b l :
  precedes a b l -> p a = true -> p b = true -> precedes a b (filter p l).
Proof.
  intros H Ha Hb. induction H as [l Hl | x l _ IH]; simpl.
  - rewrite Ha. apply precedes_here. now apply filter_In.
  - destruct (p x); [now apply precedes_later | exact IH].
Qed.

Lemma precedes_unfilter (p : A -> bool) a b l :
  precedes a b (filter p l) -> precedes a b l.
Proof.
  induction l as [|x l IH]; simpl; [trivial|].
  destruct (p x).
  - intros H. inversion H as [l' Hb | y l' H']; subst.
    + apply precedes_here. now apply filter_In in Hb.
    + apply precedes_later. now apply IH.
  - intros H. apply precedes_later. now apply IH.
Qed.

End Precedes.

Lemma precedes_map {A B : Type} (f : A -> B) (a b : A) (l : list A) :
  precedes a b l -> precedes (f a) (f b) (map f l).
Proof.
  induction 1 as [l Hb | x l _ IH]; simpl.
  - apply precedes_here. now apply in_map.
  - now apply precedes_later.
Qed.

Lemma first_index_In (w : string) (l : list string) :
  In w l -> exists n : nat, first_index w l = Some n.
Proof.
  induction l as [|x l IH]; simpl; [tauto|]. intros H.
  destruct (String.eqb_spec w x) as [->|Hne]; [now exists O|].
  destruct IH as [n Hn]; [destruct H; congruence|].
  exists (S n). now rewrite Hn.
Qed.

(** In the list of first occurrences, elements stand in the order in which
    they first appear in the list itself. *)
Lemma precedes_first_occurrences (w1 w2 : string) (l : list string) :
  precedes w1 w2 (first_occurrences l) ->
  exists a b : nat,
    first_index w1 l = Some a /\ first_index w2 l = Some b /\ (a < b)%nat.
Proof.
  induction l as [|x l IH]; simpl; intros H.
  - inversion H.
  - inversion H as [l' Hb | y l' H']; subst.
    + apply filter_In in Hb. destruct Hb as [Hb Hne].
      rewrite String.eqb_refl. rewrite negb_true_iff in Hne. rewrite Hne.
      apply (proj1 (first_occurrences_In _ _)), first_index_In in Hb.
      destruct Hb as [n Hn]. exists O, (S n). rewrite Hn.
      repeat split. lia.
    + destruct (precedes_In _ _ _ H') as [H1 H2].
      apply filter_In in H1, H2. destruct H1 as [_ H1], H2 as [_ H2].
      rewrite negb_true_iff in H1, H2. rewrite H1, H2.
      apply precedes_unfilter, IH in H'. destruct H' as (a & b & Ha & Hb & Hab).
      exists (S a), (S b). rewrite Ha, Hb. repeat split. lia.
Qed.

(** C9. Ties in the ranked list: when two entries have equal counts, the
    one that stands first in the ranked list is the token that occurs first
    in the filtered token sequence. *)
Theorem ties_in_first_occurrence_order (text : string) (config : Config) :
  let r := process_text text config in
  forall (i j : nat) (w1 w2 : string) (c : Z),
    (i < j)%nat ->
    nth_error (top_words r) i = Some (w1, c) ->
    nth_error (top_words r) j = Some (w2, c) ->
    exists a b : nat,
      first_index w1 (filtered_words text config) = Some a /\
      first_index w2 (filtered_words text config) = Some b /\
      (a < b)%nat.
Proof.
  intros r i j w1 w2 c Hij Hi Hj.
  apply precedes_first_occurrences. rewrite <- count_keys.
  change (precedes (fst (w1, c)) (fst (w2, c)) (map fst (counts r))).
  apply precedes_map.
  apply precedes_unfilter with (p := fun p => snd p =? c).
  rewrite <- (sorted_reverse_stable snd c (counts r)).
  apply precedes_filter; [| apply Z.eqb_refl | apply Z.eqb_refl].
  destruct (top_words_prefix text config) as [k Hk]. fold r in Hk.
  apply precedes_firstn with k. unfold sort_words_by_frequency, Py.items in Hk.
  rewrite <- Hk. now apply precedes_nth_error with i j.
Qed.

Lemma ties_in_first_occurrence_order_witness :
  exists a b : nat,
    first_index "sat" (filtered_words "The cat sat on the mat. The cat ran."
                                      CONFIG) = Some a /\
    first_index "ran" (filtered_words "The cat sat on the mat. The cat ran."
                                      CONFIG) = Some b /\
    (a < b)%nat.
Proof.
  apply (ties_in_first_occurrence_order
           "The cat sat on the mat. The cat ran." CONFIG 1%nat 3%nat
           "sat" "ran" 1).
  - lia.
  - reflexivity.
  - reflexivity.
Defined.

(** * Further properties of the pipeline *)

(** ** What the frequency map holds *)

Lemma get_set (d : Py.dict) (k k' : string) (v dflt : Z) :
  Py.get (Py.set d k v) k' dflt
  = if String.eqb k' k then v else Py.get d k' dflt.
Proof.
  induction d as [|[k0 v0] d IH]; simpl.
  - reflexivity.
  - destruct (String.eqb_spec k k0) as [->|Hk]; simpl.
    + now destruct (String.eqb k' k0).
    + rewrite IH. destruct (String.eqb_spec k' k0) as [->|Hk'];
        [|reflexivity].
      destruct (String.eqb_spec k0 k); congruence.
Qed.

Lemma count_from_get (words : list string) (d : Py.dict) (w : string) :
  Py.get (fold_left count_step words d) w 0
  = Py.get d w 0 + occurrences w words.
Proof.
  unfold occurrences. revert d.
  induction words as [|x words IH]; intros d; cbn [fold_left count_occ].
  - simpl. lia.
  - rewrite IH. unfold count_step. rewrite get_set.
    destruct (String.eqb_spec w x) as [->|Hne].
    + destruct (string_dec x x); [lia | congruence].
    + destruct (string_dec x w); [congruence | lia].
Qed.

Lemma count_get (words : list string) (w : string) :
  Py.get (count_word_frequencies words) w 0 = occurrences w words.
Proof.
  unfold count_word_frequencies. rewrite count_from_get. simpl. lia.
Qed.

(** X1. Looking a word up in the map built by [count_word_frequencies]
    (with default 0, as the loop itself does) gives the number of times the
    word occurs in the list; a word that does not occur is no key, and its
    lookup gives the default. *)
Theorem counts_are_occurrences (words : list string) (w : string) :
  Py.get (count_word_frequencies words) w 0 = occurrences w words /\
  (~ In w words ->
   ~ In w (Py.keys (count_word_frequencies words)) /\
   Py.get (count_word_frequencies words) w 0 = 0).
Proof.
  split; [apply count_get|]. intros Hw. split.
  - now rewrite count_keys_In.
  - rewrite count_get. unfold occurrences.
    apply (count_occ_not_In string_dec) in Hw. now rewrite Hw.
Qed.

Lemma counts_are_occurrences_witness :
  ~ In "d" (Py.keys (count_word_frequencies ["b"; "a"; "b"])) /\
  Py.get (count_word_frequencies ["b"; "a"; "b"]) "d" 0 = 0.
Proof.
  apply (proj2 (counts_are_occurrences ["b"; "a"; "b"] "d")).
  simpl. intuition discriminate.
Defined.

Lemma get_of_item (d : Py.dict) (w : string) (c dflt : Z) :
  NoDup (Py.keys d) -> In (w, c) d -> Py.get d w dflt = c.
Proof.
  induction d as [|[k v] d IH]; simpl; [tauto|].
  intros Hnd [E|Hin]; apply NoDup_cons_iff in Hnd; destruct Hnd as [Hk Hnd].
  - injection E as -> ->. now rewrite String.eqb_refl.
  - destruct (String.eqb_spec w k) as [->|_]; [|now apply IH].
    exfalso. apply Hk. change k with (fst (k, c)). now apply in_map.
Qed.

Lemma item_of_key (d : Py.dict) (w : string) (dflt : Z) :
  In w (Py.keys d) -> In (w, Py.get d w dflt) d.
Proof.
  induction d as [|[k v] d IH]; simpl; [tauto|]. intros H.
  destruct (String.eqb_spec w k) as [->|Hne]; [now left|].
  right. apply IH. destruct H; congruence.
Qed.

Lemma occurrences_pos (w : string) (l : list string) :
  In w l <-> 1 <= occurrences w l.
Proof.
  unfold occurrences. rewrite (count_occ_In string_dec). lia.
Qed.

Lemma count_items (words : list string) (w : string) (c : Z) :
  In (w, c) (Py.items (count_word_frequencies words))
  <-> In w words /\ c = occurrences w words.
Proof.
  unfold Py.items. split.
  - intros H. split.
    + apply count_keys_In. change w with (fst (w, c)). now apply in_map.
    + rewrite <- count_get. symmetry.
      apply get_of_item; [apply count_keys_NoDup | exact H].
  - intros [Hw ->]. rewrite <- count_get.
    apply item_of_key. now apply count_keys_In.
Qed.

(** X2. The entries of the frequency map are exactly the pairs of a word
    of the list with its number of occurrences, and every stored count is at
    least 1. *)
Theorem count_entries (words : list string) (w : string) (c : Z) :
  (In (w, c) (Py.items (count_word_frequencies words))
   <-> In w words /\ c = occurrences w words) /\
  (In (w, c) (Py.items (count_word_frequencies words)) -> 1 <= c).
Proof.
  split; [apply count_items|]. intros H.
  apply count_items in H. destruct H as [Hw ->]. now apply occurrences_pos.
Qed.

Lemma count_entries_witness :
  In ("b", 3) (Py.items (count_word_frequencies ["b"; "a"; "b"; "c"; "b"])).
Proof.
  apply (proj2 (proj1 (count_entries ["b"; "a"; "b"; "c"; "b"] "b" 3))).
  split; [simpl; tauto | reflexivity].
Defined.

(** ** Distinct and total tokens *)

Lemma first_occurrences_length (l : list string) :
  (List.length (first_occurrences l) <= List.length l)%nat.
Proof.
  induction l as [|x l IH]; simpl; [lia|].
  pose proof (filter_length_le (fun y => negb (String.eqb y x))
                               (first_occurrences l)). lia.
Qed.

Lemma first_occurrences_full (l : list string) :
  List.length (first_occurrences l) = List.length l <-> NoDup l.
Proof.
  induction l as [|x l IH]; simpl.
  - split; [constructor | reflexivity].
  - pose proof (filter_length_le (fun y => negb (String.eqb y x))
                                 (first_occurrences l)) as Hle.
    pose proof (first_occurrences_length l) as Hfo.
    rewrite NoDup_cons_iff, <- IH. split.
    + intros H. split; [|lia].
      assert (Hall : List.length (filter (fun y => negb (String.eqb y x))
                                         (first_occurrences l))
                     = List.length (first_occurrences l)) by lia.
      apply filter_length_forallb in Hall. rewrite forallb_forall in Hall.
      intros Hx. apply (proj2 (first_occurrences_In _ _)), Hall in Hx.
      now rewrite String.eqb_refl in Hx.
    + intros [Hx Hl]. rewrite <- Hl. f_equal.
      rewrite forallb_filter_id; [reflexivity|].
      apply forallb_forall. intros y Hy. apply negb_true_iff.
      apply String.eqb_neq. intros ->.
      now apply (proj1 (first_occurrences_In _ _)) in Hy.
Qed.

(** X3. In every result there are at most as many distinct tokens as
    tokens, and as many exactly when no token is repeated. *)
Theorem unique_le_total (text : string) (config : Config) :
  let r := process_text text config in
  unique_words r <= total_words r /\
  (unique_words r = total_words r <-> NoDup (filtered_words text config)).
Proof.
  intros r.
  assert (Hu : unique_words r
               = Py.len (first_occurrences (filtered_words text config))).
  { unfold Py.len. rewrite <- count_keys. unfold Py.keys.
    rewrite length_map. reflexivity. }
  assert (Ht : total_words r = Py.len (filtered_words text config))
    by apply count_sum.
  rewrite Hu, Ht. unfold Py.len.
  pose proof (first_occurrences_length (filtered_words text config)).
  split; [lia|]. rewrite <- first_occurrences_full. lia.
Qed.

Lemma unique_le_total_witness :
  unique_words (process_text "one two three" CONFIG)
  = total_words (process_text "one two three" CONFIG).
Proof.
  apply (proj2 (unique_le_total "one two three" CONFIG)).
  vm_compute. repeat constructor; simpl; intuition discriminate.
Defined.

(** ** Cleaning and filtering again *)

Lemma lstrip_fixed (s chars : string) :
  (forall c, first_char s = Some c -> Py.char_in c chars = false) ->
  Py.lstrip s chars = s.
Proof.
  destruct s as [|a s]; simpl; [reflexivity|]. intros H.
  now rewrite (H a eq_refl).
Qed.

Lemma rstrip_fixed (s chars : string) :
  (forall c, last_char s = Some c -> Py.char_in c chars = false) ->
  Py.rstrip s chars = s.
Proof.
  induction s as [|a s IH]; [reflexivity|]. intros H. cbn [Py.rstrip].
  destruct s as [|b s].
  - simpl. now rewrite (H a eq_refl).
  - rewrite (IH H). reflexivity.
Qed.

Lemma clean_word_fixed (t chars : string) :
  (forall c, first_char t = Some c -> Py.char_in c chars = false) ->
  (forall c, last_char t = Some c -> Py.char_in c chars = false) ->
  clean_word t chars = t.
Proof.
  intros Hf Hl. unfold clean_word, Py.strip.
  rewrite (lstrip_fixed t chars Hf). now apply rstrip_fixed.
Qed.

Lemma clean_all_words_fixed (l : list string) (chars : string) :
  Forall (clean_token chars) l -> clean_all_words l chars = l.
Proof.
  rewrite clean_all_words_eq.
  induction 1 as [|t l (Hne & Hf & Hl) _ IH]; simpl; [reflexivity|].
  rewrite (clean_word_fixed t chars Hf Hl), IH.
  apply truthy_true_iff in Hne. now rewrite Hne.
Qed.

(** X4. Cleaning is idempotent: a cleaned word is left as it is by
    [clean_word], and a cleaned list by [clean_all_words]. *)
Theorem cleaning_idempotent (words : list string) (word punct : string) :
  clean_word (clean_word word punct) punct = clean_word word punct /\
  clean_all_words (clean_all_words words punct) punct
  = clean_all_words words punct.
Proof.
  split.
  - destruct (strip_spec word punct) as (pre & post & _ & _ & _ & Hf & Hl).
    now apply clean_word_fixed.
  - apply clean_all_words_fixed, clean_all_words_clean.
Qed.

(** X5. Filtering in two passes is filtering once by the two stopword
    lists put together; in particular a second pass with the same list
    removes nothing more. *)
Theorem filter_stopwords_twice (words stops1 stops2 : list string) :
  filter_stopwords (filter_stopwords words stops1) stops2
  = filter_stopwords words (stops1 ++ stops2) /\
  filter_stopwords (filter_stopwords words stops1) stops1
  = filter_stopwords words stops1.
Proof.
  unfold filter_stopwords. rewrite !filter_twice. split.
  - apply filter_ext. intros w. rewrite str_in_app.
    destruct (Py.truthy w), (Py.str_in w stops1), (Py.str_in w stops2);
      reflexivity.
  - apply filter_ext. intros w.
    destruct (Py.truthy w), (Py.str_in w stops1); reflexivity.
Qed.

(** X6. With an empty stopword list nothing is removed: the tokens that
    reach the counter are the cleaned words, all of them. *)
Theorem no_stopwords_keeps_all (text : string) (config : Config) :
  stopwords config = [] ->
  filtered_words text config
  = clean_all_words (normalize_text text) (punctuation config).
Proof.
  intros H. unfold filtered_words, filter_stopwords. rewrite H.
  apply forallb_filter_id. apply forallb_forall. intros w Hw.
  pose proof (clean_all_words_clean (normalize_text text)
                                    (punctuation config)) as Hc.
  rewrite Forall_forall in Hc. destruct (Hc w Hw) as [Hne _].
  apply truthy_true_iff in Hne. now rewrite Hne.
Qed.

Lemma no_stopwords_keeps_all_witness :
  filtered_words "The cat, the hat." (mkConfig [] ".," 10 "*" 15 3)
  = ["the"; "cat"; "the"; "hat"].
Proof.
  rewrite (no_stopwords_keeps_all "The cat, the hat."
             (mkConfig [] ".," 10 "*" 15 3) eq_refl).
  reflexivity.
Defined.

(** ** Texts put together *)

Lemma isspace_lower_char (c : ascii) :
  Py.isspace (Py.lower_char c) = Py.isspace c.
Proof. destruct c as [[] [] [] [] [] [] [] []]; reflexivity. Qed.

Lemma lower_char_idempotent (c : ascii) :
  Py.lower_char (Py.lower_char c) = Py.lower_char c.
Proof. destruct c as [[] [] [] [] [] [] [] []]; reflexivity. Qed.

Lemma lower_app (a b : string) : Py.lower (a ++ b) = Py.lower a ++ Py.lower b.
Proof. induction a as [|c a IH]; simpl; [reflexivity | now rewrite IH]. Qed.

Lemma lower_idempotent (s : string) : Py.lower (Py.lower s) = Py.lower s.
Proof.
  induction s as [|c s IH]; simpl; [reflexivity|].
  now rewrite lower_char_idempotent, IH.
Qed.

Lemma split_scan_sep (a b cur : string) (sp : ascii) :
  Py.isspace sp = true ->
  Py.split_scan cur (a ++ String sp b)
  = (Py.split_scan cur a ++ Py.split b)%list.
Proof.
  intros Hsp. revert cur. induction a as [|c a IH]; intros cur; simpl.
  - rewrite Hsp. now destruct (Py.truthy cur).
  - destruct (Py.isspace c); [|apply IH].
    destruct (Py.truthy cur); simpl; now rewrite IH.
Qed.

Lemma normalize_text_sep (a b : string) (sp : ascii) :
  Py.isspace sp = true ->
  normalize_text (a ++ String sp b)
  = (normalize_text a ++ normalize_text b)%list.
Proof.
  intros Hsp. unfold normalize_text, Py.split. rewrite lower_app. simpl.
  apply split_scan_sep. now rewrite isspace_lower_char.
Qed.

Lemma clean_all_words_app (l1 l2 : list string) (chars : string) :
  clean_all_words (l1 ++ l2) chars
  = (clean_all_words l1 chars ++ clean_all_words l2 chars)%list.
Proof. now rewrite !clean_all_words_eq, map_app, filter_app. Qed.

Lemma filtered_words_sep (a b : string) (sp : ascii) (config : Config) :
  Py.isspace sp = true ->
  filtered_words (a ++ String sp b) config
  = (filtered_words a config ++ filtered_words b config)%list.
Proof.
  intros Hsp. unfold filtered_words, filter_stopwords.
  now rewrite normalize_text_sep, clean_all_words_app, filter_app.
Qed.

Lemma normalize_text_skip (sep b : string) :
  all_chars Py.isspace sep = true ->
  normalize_text (sep ++ b) = normalize_text b.
Proof.
  induction sep as [|c sep IH]; simpl; [reflexivity|]. intros H.
  apply andb_true_iff in H. destruct H as [Hc Hsep].
  rewrite <- (IH Hsep). unfold normalize_text, Py.split. simpl.
  now rewrite isspace_lower_char, Hc.
Qed.

(** X7. The words of two texts joined by a non-empty run of whitespace
    characters, of any kind and length, are the words of the first followed
    by the words of the second: no word is formed across the separator, and
    none is lost. *)
Theorem normalize_text_concat (a sep b : string) :
  sep <> "" -> all_chars Py.isspace sep = true ->
  normalize_text (a ++ sep ++ b)
  = (normalize_text a ++ normalize_text b)%list.
Proof.
  destruct sep as [|sp sep]; [congruence|]. intros _ H. simpl in H.
  apply andb_true_iff in H. destruct H as [Hsp Hsep].
  change (a ++ String sp sep ++ b) with (a ++ String sp (sep ++ b)).
  rewrite normalize_text_sep by trivial.
  now rewrite normalize_text_skip.
Qed.

Lemma normalize_text_concat_witness :
  normalize_text ("The cat" ++ "   " ++ "SAT  down")
  = (normalize_text "The cat" ++ normalize_text "SAT  down")%list.
Proof.
  apply (normalize_text_concat "The cat" "   " "SAT  down");
    [discriminate | reflexivity].
Defined.

(** X8. Counting is additive over texts joined by a whitespace character:
    the count of every word in the joined text is the sum of its counts in
    the two texts, and so is the total. *)
Theorem process_text_concat (a b : string) (sp : ascii) (config : Config) :
  Py.isspace sp = true ->
  let ra := process_text a config in
  let rb := process_text b config in
  let rab := process_text (a ++ String sp b) config in
  total_words rab = total_words ra + total_words rb /\
  forall w, Py.get (counts rab) w 0
            = Py.get (counts ra) w 0 + Py.get (counts rb) w 0.
Proof.
  intros Hsp ra rb rab. split.
  - subst ra rb rab.
    change (Py.sum (Py.values (count_word_frequencies
                                 (filtered_words (a ++ String sp b) config)))
            = Py.sum (Py.values (count_word_frequencies
                                   (filtered_words a config)))
              + Py.sum (Py.values (count_word_frequencies
                                     (filtered_words b config)))).
    rewrite !count_sum, filtered_words_sep by trivial.
    unfold Py.len. rewrite length_app. lia.
  - intros w. subst ra rb rab. rewrite !process_text_counts, !count_get.
    rewrite filtered_words_sep by trivial. unfold occurrences.
    rewrite count_occ_app. lia.
Qed.

Lemma process_text_concat_witness :
  total_words (process_text ("the cat sat" ++ String " " "a cat ran") CONFIG)
  = total_words (process_text "the cat sat" CONFIG)
    + total_words (process_text "a cat ran" CONFIG).
Proof.
  apply (process_text_concat "the cat sat" "a cat ran" " " CONFIG).
  reflexivity.
Defined.

Lemma split_scan_word (w cur : string) :
  whitespace_free w ->
  Py.split_scan cur w = if Py.truthy (cur ++ w) then [cur ++ w] else [].
Proof.
  unfold whitespace_free. revert cur.
  induction w as [|c w IH]; intros cur H; simpl.
  - now rewrite append_nil_r.
  - simpl in H. apply andb_true_iff in H. destruct H as [Hc Hw].
    apply negb_true_iff in Hc. rewrite Hc, IH by trivial.
    now rewrite append_assoc.
Qed.

Lemma normalize_text_word (w : string) :
  w <> "" -> whitespace_free w -> lowercase w -> normalize_text w = [w].
Proof.
  intros Hne Hws Hlow. unfold normalize_text, Py.split. rewrite Hlow.
  rewrite split_scan_word by trivial. simpl.
  apply truthy_true_iff in Hne. now rewrite Hne.
Qed.

(** X9. Round trip: joining words with single spaces and normalising the
    result gives the words back, provided each word is non-empty, free of
    whitespace and in lower case. *)
Theorem normalize_text_join (words : list string) :
  Forall (fun w => w <> "" /\ whitespace_free w /\ lowercase w) words ->
  normalize_text (String.concat " " words) = words.
Proof.
  induction 1 as [|w words (Hne & Hws & Hlow) Hrest IH]; [reflexivity|].
  destruct words as [|w' words].
  - simpl. now apply normalize_text_word.
  - change (String.concat " " (w :: w' :: words))
      with (w ++ String " " (String.concat " " (w' :: words))).
    rewrite normalize_text_sep by reflexivity.
    rewrite IH, normalize_text_word by trivial. reflexivity.
Qed.

Lemma normalize_text_join_witness :
  normalize_text (String.concat " " ["cat"; "sat"; "don't"])
  = ["cat"; "sat"; "don't"].
Proof.
  apply (normalize_text_join ["cat"; "sat"; "don't"]).
  repeat constructor; discriminate.
Defined.

(** X10. Letter case does not matter: a text and its lowercase form give
    the same result. *)
Theorem process_text_case_insensitive (text : string) (config : Config) :
  process_text (Py.lower text) config = process_text text config.
Proof.
  unfold process_text, normalize_text. now rewrite lower_idempotent.
Qed.

(** ** What the ranked list reports *)

Lemma top_words_incl (text : string) (config : Config) (p : string * Z) :
  In p (top_words (process_text text config)) ->
  In p (Py.items (counts (process_text text config))).
Proof.
  destruct (top_words_prefix text config) as [k Hk]. rewrite Hk. intros H.
  apply (Permutation_in _ (Permutation_sym (sorted_reverse_perm snd _))).
  fold (sort_words_by_frequency (counts (process_text text config))).
  rewrite <- (firstn_skipn k). apply in_or_app. now left.
Qed.

Lemma firstn_NoDup {A : Type} (k : nat) (l : list A) :
  NoDup l -> NoDup (firstn k l).
Proof.
  intros H. rewrite <- (firstn_skipn k l) in H.
  now apply NoDup_app_remove_r in H.
Qed.

(** X11. Every entry of the ranked list pairs a token of the filtered
    sequence with its exact number of occurrences there, and no token is
    ranked twice. *)
Theorem ranked_entries_faithful (text : string) (config : Config) :
  let r := process_text text config in
  (forall w c, In (w, c) (top_words r) ->
               In w (filtered_words text config) /\
               c = occurrences w (filtered_words text config)) /\
  NoDup (map fst (top_words r)).
Proof.
  intros r. split.
  - intros w c H. apply top_words_incl in H.
    now apply count_items in H.
  - destruct (top_words_prefix text config) as [k Hk]. fold r in Hk.
    rewrite Hk, <- firstn_map. apply firstn_NoDup.
    apply (Permutation_NoDup
             (Permutation_map fst (sorted_reverse_perm snd (counts r)))).
    apply count_keys_NoDup.
Qed.

Lemma ranked_entries_faithful_witness :
  In "cat" (filtered_words "The cat sat on the mat. The cat ran." CONFIG) /\
  2 = occurrences "cat"
        (filtered_words "The cat sat on the mat. The cat ran." CONFIG).
Proof.
  apply (proj1 (ranked_entries_faithful
                  "The cat sat on the mat. The cat ran." CONFIG) "cat" 2).
  vm_compute. tauto.
Defined.

(** X12. With a limit of at least 1 and at least one token, the ranked
    list starts with a most frequent token: no word occurs more often in
    the filtered sequence than the one reported first. *)
Theorem most_frequent_first (text : string) (config : Config) :
  1 <= top_n config ->
  filtered_words text config <> [] ->
  exists w : string,
    hd_error (top_words (process_text text config))
    = Some (w, occurrences w (filtered_words text config)) /\
    forall w', occurrences w' (filtered_words text config)
               <= occurrences w (filtered_words text config).
Proof.
  intros Hn Hne. set (r := process_text text config).
  set (ws := filtered_words text config) in *.
  assert (Htop : top_words r
                 = firstn (Z.to_nat (top_n config))
                          (sort_words_by_frequency (counts r))).
  { unfold r. rewrite process_text_top_words. unfold get_top_words.
    apply slice_to_nonneg. lia. }
  pose proof (sorted_reverse_sorted snd (Py.items (counts r))) as Hs.
  pose proof (sorted_reverse_perm snd (Py.items (counts r))) as Hp.
  fold (sort_words_by_frequency (counts r)) in Hs, Hp.
  destruct (sort_words_by_frequency (counts r)) as [|[w c] rest] eqn:E.
  - apply Permutation_sym, Permutation_nil in Hp.
    unfold Py.items in Hp.
    assert (Hk : Py.keys (counts r) = []) by (unfold Py.keys; now rewrite Hp).
    unfold r in Hk. rewrite process_text_counts, count_keys in Hk.
    fold ws in Hk.
    destruct ws as [|x ws']; [congruence | discriminate].
  - assert (Hwc : In (w, c) (Py.items (counts r))).
    { apply (Permutation_in _ (Permutation_sym Hp)). now left. }
    unfold r in Hwc. rewrite process_text_counts in Hwc. fold ws in Hwc.
    apply count_items in Hwc. destruct Hwc as [Hw ->].
    exists w. split.
    + rewrite Htop. destruct (Z.to_nat (top_n config)) eqn:En; [lia|].
      reflexivity.
    + intros w'. destruct (in_dec string_dec w' ws) as [Hin|Hout].
      * assert (Hw' : In (w', occurrences w' ws) (Py.items (counts r))).
        { unfold r. rewrite process_text_counts. fold ws.
          apply count_items. now split. }
        apply (Permutation_in _ Hp) in Hw'. destruct Hw' as [Eq|Hrest].
        -- injection Eq as <- _. lia.
        -- apply StronglySorted_inv in Hs. destruct Hs as [_ Hs].
           rewrite Forall_forall in Hs. apply (Hs _ Hrest).
      * unfold occurrences at 1.
        apply (count_occ_not_In string_dec) in Hout. rewrite Hout.
        apply occurrences_pos in Hw. lia.
Qed.

Lemma most_frequent_first_witness :
  exists w : string,
    hd_error (top_words (process_text "b a b c a b" CONFIG))
    = Some (w, occurrences w (filtered_words "b a b c a b" CONFIG)) /\
    forall w', occurrences w' (filtered_words "b a b c a b" CONFIG)
               <= occurrences w (filtered_words "b a b c a b" CONFIG).
Proof.
  apply (most_frequent_first "b a b c a b" CONFIG).
  - simpl. lia.
  - vm_compute. discriminate.
Defined.

(** ** The shape of the tokens *)

Lemma split_words_all (p : ascii -> bool) (s : string) (ws : list string) :
  split_on_whitespace s ws -> all_chars p s = true ->
  Forall (fun w => all_chars p w = true) ws.
Proof.
  induction 1 as [s Hs | pre w rest ws Hpre Hw Hns Hb Hrest IH]; intros H.
  - constructor.
  - rewrite !all_chars_app, !andb_true_iff in H.
    constructor; [tauto | apply IH; tauto].
Qed.

Lemma split_words_whitespace_free (s : string) (ws : list string) :
  split_on_whitespace s ws -> Forall whitespace_free ws.
Proof.
  induction 1 as [s Hs | pre w rest ws Hpre Hw Hns Hb Hrest IH];
    constructor; trivial.
Qed.

Lemma stripped_all (p : ascii -> bool) (chars w t : string) :
  stripped_of chars w t -> all_chars p w = true -> all_chars p t = true.
Proof.
  intros (pre & post & -> & _) H.
  rewrite !all_chars_app, !andb_true_iff in H. tauto.
Qed.

Lemma lowercase_iff (s : string) :
  lowercase s
  <-> all_chars (fun c => Ascii.eqb (Py.lower_char c) c) s = true.
Proof.
  unfold lowercase. induction s as [|c s IH]; simpl; [tauto|].
  rewrite andb_true_iff, Ascii.eqb_eq, <- IH. split.
  - intros [= Hc Hs]. now rewrite Hc, Hs.
  - intros [-> ->]. reflexivity.
Qed.

Lemma cleaned_words_all (p : ascii -> bool) (text punct w : string) :
  all_chars p (Py.lower text) = true ->
  In w (clean_all_words (normalize_text text) punct) ->
  all_chars p w = true.
Proof.
  intros Hp Hw. rewrite clean_all_words_eq in Hw.
  apply filter_In in Hw. destruct Hw as [Hw _].
  apply in_map_iff in Hw. destruct Hw as (raw & <- & Hraw).
  apply (stripped_all p punct raw); [apply strip_spec|].
  pose proof (split_words_all p _ _ (split_spec (Py.lower text)) Hp) as Hall.
  rewrite Forall_forall in Hall. now apply Hall.
Qed.

Lemma token_shape (text : string) (config : Config) (w : string) :
  In w (filtered_words text config) ->
  w <> "" /\ whitespace_free w /\ lowercase w.
Proof.
  intros H.
  unfold filtered_words in H. apply filter_stopwords_In in H.
  destruct H as (Hw & Hne & _). split; [exact Hne | split].
  - rewrite clean_all_words_eq in Hw.
    apply filter_In in Hw. destruct Hw as [Hw _].
    apply in_map_iff in Hw. destruct Hw as (raw & <- & Hraw).
    apply (stripped_all _ (punctuation config) raw); [apply strip_spec|].
    pose proof (split_words_whitespace_free _ _ (split_spec (Py.lower text)))
      as Hall.
    rewrite Forall_forall in Hall. now apply Hall.
  - apply lowercase_iff.
    apply (cleaned_words_all _ text (punctuation config)); trivial.
    apply lowercase_iff. apply lower_idempotent.
Qed.

Lemma ranked_word_shape (text : string) (config : Config) (word : string)
    (count : Z) :
  In (word, count) (top_words (process_text text config)) ->
  whitespace_free word.
Proof.
  intros H. apply top_words_incl in H. rewrite process_text_counts in H.
  apply count_items in H. destruct H as [H _].
  now apply token_shape in H.
Qed.

(** X13. Every key of [counts] in a result is a non-empty word without
    whitespace that is in lower case. *)
Theorem keys_normalized (text : string) (config : Config) (w : string) :
  In w (Py.keys (counts (process_text text config))) ->
  w <> "" /\ whitespace_free w /\ lowercase w.
Proof.
  intros H. rewrite process_text_counts, count_keys_In in H.
  now apply token_shape in H.
Qed.

Lemma keys_normalized_witness :
  "don't" <> "" /\ whitespace_free "don't" /\ lowercase "don't".
Proof.
  apply (keys_normalized "DON'T  stop!" CONFIG "don't").
  vm_compute. tauto.
Defined.

(** * Properties of the presentation functions *)

(** ** Lengths of strings *)

Lemma slen_app (a b : string) : slen (a ++ b) = slen a + slen b.
Proof.
  unfold slen. induction a as [|c a IH]; simpl String.length; [lia|].
  rewrite !Nat2Z.inj_succ. simpl in IH. lia.
Qed.

Lemma slen_nonneg (s : string) : 0 <= slen s.
Proof. unfold slen. lia. Qed.

Lemma slen_repeat_nat (s : string) (n : nat) :
  slen (Fmt.repeat_nat s n) = Z.of_nat n * slen s.
Proof.
  induction n as [|k IH]; [reflexivity|].
  cbn [Fmt.repeat_nat]. rewrite slen_app, IH. lia.
Qed.

Lemma slen_padding (s : string) (w : Z) :
  slen (Fmt.padding s w) = Z.max 0 (w - slen s).
Proof.
  unfold Fmt.padding. rewrite slen_repeat_nat. fold (slen s).
  change (slen " ") with 1. lia.
Qed.

Lemma slen_column (n w : Z) :
  slen (column n w) = Z.max w (slen (Fmt.str n)).
Proof.
  unfold column. rewrite slen_app, slen_padding.
  pose proof (slen_nonneg (Fmt.str n)). lia.
Qed.

(** ** The limits of repetition and of widths *)

Lemma max_size_value : Fmt.max_size = 9223372036854775807.
Proof. reflexivity. Qed.

Lemma word_sized_iff (n : Z) :
  Fmt.word_sized n <-> - 9223372036854775808 <= n <= 9223372036854775807.
Proof.
  unfold Fmt.word_sized. change (2 ^ 63) with 9223372036854775808. lia.
Qed.

Lemma repeat_ok (s : string) (n : Z) :
  bar_fits s n -> Fmt.repeat s n = inr (Fmt.repeat_nat s (Z.to_nat n)).
Proof.
  intros [Hn Hfit]. unfold Fmt.word_sized, Fmt.max_size in *.
  unfold Fmt.repeat, Fmt.max_size. fold (slen s).
  destruct (Z.ltb_spec n (- 2 ^ 63)); [lia|].
  destruct (Z.ltb_spec (2 ^ 63 - 1) n); [lia|]. cbn [orb].
  destruct (Z.leb_spec n 0).
  - now replace (Z.to_nat n) with O by lia.
  - destruct (Z.ltb_spec (2 ^ 63 - 1) (slen s * n)); [lia|].
    reflexivity.
Qed.

Lemma repeat_overflow (s : string) (n : Z) :
  ~ Fmt.word_sized n \/ Fmt.max_size < slen s * Z.max 0 n ->
  Fmt.repeat s n = inl Fmt.OverflowError.
Proof.
  unfold Fmt.word_sized, Fmt.max_size. intros H.
  unfold Fmt.repeat, Fmt.max_size. fold (slen s).
  destruct (Z.ltb_spec n (- 2 ^ 63)); [reflexivity|].
  destruct (Z.ltb_spec (2 ^ 63 - 1) n); [reflexivity|]. cbn [orb].
  destruct (Z.leb_spec n 0); [lia|].
  destruct (Z.ltb_spec (2 ^ 63 - 1) (slen s * n)); [reflexivity|].
  lia.
Qed.

Lemma format_int_ok (n w : Z) :
  Z.abs w <= Fmt.max_size -> Fmt.format_int n w = inr (column n (Z.abs w)).
Proof.
  intros H. unfold Fmt.format_int.
  destruct (Z.ltb_spec Fmt.max_size (Z.abs w)); [lia | reflexivity].
Qed.

Lemma format_int_refused (n w : Z) :
  Fmt.max_size < Z.abs w -> Fmt.format_int n w = inl Fmt.ValueError.
Proof.
  intros H. unfold Fmt.format_int.
  destruct (Z.ltb_spec Fmt.max_size (Z.abs w)); [reflexivity | lia].
Qed.

Lemma format_str_ok (s : string) (w : Z) :
  0 <= w <= Fmt.max_size ->
  Fmt.format_str s w = inr (s ++ Fmt.padding s w).
Proof.
  intros H. unfold Fmt.format_str.
  destruct (Z.ltb_spec w 0); [lia|].
  destruct (Z.ltb_spec Fmt.max_size w); [lia | reflexivity].
Qed.

Lemma format_str_refused (s : string) (w : Z) :
  w < 0 \/ Fmt.max_size < w -> Fmt.format_str s w = inl Fmt.ValueError.
Proof.
  intros H. unfold Fmt.format_str.
  destruct (Z.ltb_spec w 0); [reflexivity|].
  destruct (Z.ltb_spec Fmt.max_size w); [reflexivity | lia].
Qed.

(** ** [str] of an [int]: decimal digits *)

Lemma digit_value (d v : Z) :
  0 <= d < 10 ->
  10 * v + (Z.of_N (N_of_ascii (Fmt.digit d)) - 48) = 10 * v + d.
Proof.
  intros H. unfold Fmt.digit. rewrite N_ascii_embedding; lia.
Qed.

Lemma digits_value (fuel : nat) : forall (n : Z) (acc : string),
  0 <= n < 2 ^ Z.of_nat fuel ->
  decimal_value 0 (Fmt.digits fuel n acc) = decimal_value n acc.
Proof.
  induction fuel as [|fuel IH]; intros n acc Hn.
  - simpl in *. now replace n with 0 by lia.
  - cbn [Fmt.digits]. rewrite Nat2Z.inj_succ, Z.pow_succ_r in Hn by lia.
    pose proof (Z.mod_pos_bound n 10 ltac:(lia)) as Hm.
    pose proof (Z.div_mod n 10 ltac:(lia)) as Hd.
    destruct (Z.ltb_spec n 10) as [Hlt|Hge].
    + cbn [decimal_value]. rewrite digit_value by lia.
      rewrite Z.mod_small by lia. reflexivity.
    + rewrite IH.
      * cbn [decimal_value]. rewrite digit_value by lia. f_equal. lia.
      * split; [apply Z.div_pos; lia|].
        apply Z.div_lt_upper_bound; lia.
Qed.

(** Reading the digits of [str(n)] gives [n] back. *)
Lemma str_nonneg_value (n : Z) :
  0 <= n -> decimal_value 0 (Fmt.str_nonneg n) = n.
Proof.
  intros Hn. unfold Fmt.str_nonneg. rewrite digits_value; [reflexivity|].
  split; [exact Hn|]. rewrite Nat2Z.inj_succ, Z2Nat.id by apply Z.log2_nonneg.
  destruct (Z.eq_dec n 0) as [->|Hnz]; [reflexivity|].
  apply Z.log2_spec. lia.
Qed.

Lemma digits_length (fuel : nat) : forall (n : Z) (acc : string) (k : Z),
  1 <= k -> 0 <= n < 10 ^ k ->
  slen (Fmt.digits fuel n acc) <= k + slen acc.
Proof.
  induction fuel as [|fuel IH]; intros n acc k Hk Hn; cbn [Fmt.digits].
  - lia.
  - destruct (Z.ltb_spec n 10) as [Hlt|Hge].
    + change (String ?c acc) with (String c "" ++ acc).
      rewrite slen_app. change (slen (String _ "")) with 1. lia.
    + assert (Hk2 : 2 <= k).
      { destruct (Z.eq_dec k 1) as [->|]; [simpl in Hn; lia | lia]. }
      replace k with (Z.succ (k - 1)) in Hn by lia.
      rewrite Z.pow_succ_r in Hn by lia.
      specialize (IH (n / 10) (String (Fmt.digit (n mod 10)) acc) (k - 1)).
      change (String (Fmt.digit (n mod 10)) acc)
        with (String (Fmt.digit (n mod 10)) "" ++ acc) in IH at 2.
      rewrite slen_app in IH. change (slen (String _ "")) with 1 in IH.
      assert (0 <= n / 10 < 10 ^ (k - 1)).
      { split; [apply Z.div_pos; lia|]. apply Z.div_lt_upper_bound; lia. }
      lia.
Qed.

Lemma str_length (n k : Z) :
  1 <= k -> 0 <= n < 10 ^ k -> slen (Fmt.str n) <= k.
Proof.
  intros Hk Hn. unfold Fmt.str.
  destruct (Z.ltb_spec n 0); [lia|]. unfold Fmt.str_nonneg.
  pose proof (digits_length (S (Z.to_nat (Z.log2 n))) n "" k Hk Hn) as Hd.
  change (slen "") with 0 in Hd. lia.
Qed.

Example str_examples :
  Fmt.str 0 = "0" /\ Fmt.str 7 = "7" /\ Fmt.str 10 = "10" /\
  Fmt.str 1234567 = "1234567" /\ Fmt.str (-45) = "-45".
Proof. repeat split. Qed.

Example format_examples :
  Fmt.format_int 5 3 = inr "  5" /\
  Fmt.format_int 5 (-3) = inr "  5" /\
  Fmt.format_int 1234 2 = inr "1234" /\
  Fmt.format_int 2 (- 2 ^ 63) = inl Fmt.ValueError /\
  Fmt.format_str "ab" 4 = inr "ab  " /\
  Fmt.format_str "ab" 0 = inr "ab" /\
  Fmt.format_str "ab" (-4) = inl Fmt.ValueError /\
  Fmt.repeat "ab" 2 = inr "abab" /\
  Fmt.repeat "ab" (-3) = inr "" /\
  Fmt.repeat "**" (2 ^ 62) = inl Fmt.OverflowError /\
  Fmt.repeat "" (2 ^ 63) = inl Fmt.OverflowError.
Proof. repeat split. Qed.

(** ** Results within the range of a machine word *)

Lemma occurrences_le (w : string) (l : list string) :
  occurrences w l <= Py.len l.
Proof.
  unfold occurrences, Py.len. induction l as [|x l IH]; simpl; [lia|].
  destruct (string_dec x w); lia.
Qed.

Lemma ranked_count_bounds (text : string) (config : Config) (w : string)
    (c : Z) :
  In (w, c) (top_words (process_text text config)) ->
  1 <= c <= total_words (process_text text config).
Proof.
  intros Hin. apply top_words_incl in Hin.
  rewrite process_text_counts in Hin.
  apply count_items in Hin. destruct Hin as [Hw ->].
  pose proof (occurrences_le w (filtered_words text config)) as Hle.
  apply occurrences_pos in Hw.
  change (total_words (process_text text config))
    with (Py.sum (Py.values (count_word_frequencies
                               (filtered_words text config)))).
  rewrite count_sum. lia.
Qed.

Lemma process_text_word_sized (text : string) (config : Config) :
  total_words (process_text text config) < 2 ^ 63 ->
  result_word_sized (process_text text config).
Proof.
  set (r := process_text text config). intros Hlt.
  assert (Ht : total_words r = Py.len (filtered_words text config))
    by apply count_sum.
  assert (Hu : unique_words r
               = Py.len (first_occurrences (filtered_words text config))).
  { unfold Py.len. rewrite <- count_keys. unfold Py.keys.
    rewrite length_map. reflexivity. }
  pose proof (first_occurrences_length (filtered_words text config)) as Hfo.
  assert (Hk : Py.len (top_words r) <= unique_words r).
  { destruct (top_words_prefix text config) as [k Hk]. fold r in Hk.
    rewrite Hk. unfold Py.len. rewrite length_firstn, sort_words_length.
    change (unique_words r) with (Py.len (counts r)). unfold Py.len. lia. }
  unfold result_word_sized, Fmt.word_sized, Py.len in *.
  repeat split; try lia.
  apply Forall_forall. intros [w c] Hin. cbn [snd].
  apply ranked_count_bounds in Hin. fold r in Hin. lia.
Qed.

(** ** [format_bar] and [format_word_line] *)

Lemma ranked_bar_fits (text : string) (config : Config) (w : string) (c : Z) :
  total_words (process_text text config) < 2 ^ 63 ->
  slen (bar_char config) * total_words (process_text text config)
  <= Fmt.max_size ->
  In (w, c) (top_words (process_text text config)) ->
  bar_fits (bar_char config) c.
Proof.
  intros Hlt Hfit Hin. apply ranked_count_bounds in Hin.
  pose proof (slen_nonneg (bar_char config)).
  unfold bar_fits, Fmt.word_sized. split; [lia | nia].
Qed.

(** X14. [format_bar]: for a count that fits a machine word and a bar of at
    most [sys.maxsize] characters, the bar is as long as the count times the
    length of the bar string, and empty for a count of zero or less; for
    every other count it raises [OverflowError].  For the entries that
    [process_text] ranks (fewer than 2^63 tokens) and a bar string of one
    character, the bar is built and is exactly as long as the count. *)
Theorem format_bar_length :
  (forall count bar_char,
     Fmt.word_sized count ->
     slen bar_char * Z.max 0 count <= Fmt.max_size ->
     exists bar,
       format_bar count bar_char = inr bar /\
       slen bar = Z.max 0 count * slen bar_char) /\
  (forall count bar_char,
     ~ Fmt.word_sized count \/
     Fmt.max_size < slen bar_char * Z.max 0 count ->
     format_bar count bar_char = inl Fmt.OverflowError) /\
  (forall text config w c,
     total_words (process_text text config) < 2 ^ 63 ->
     slen (bar_char config) = 1 ->
     In (w, c) (top_words (process_text text config)) ->
     exists bar,
       format_bar c (bar_char config) = inr bar /\ slen bar = c).
Proof.
  split; [|split].
  - intros count bar Hc Hfit. unfold format_bar.
    rewrite repeat_ok by now split. eexists. split; [reflexivity|].
    rewrite slen_repeat_nat. lia.
  - intros count bar H. now apply repeat_overflow.
  - intros text config w c Hlt Hbar Hin. unfold format_bar.
    pose proof (ranked_count_bounds text config w c Hin) as Hc.
    rewrite repeat_ok.
    + eexists. split; [reflexivity|]. rewrite slen_repeat_nat, Hbar. lia.
    + apply (ranked_bar_fits text config w c); trivial.
      rewrite Hbar. unfold Fmt.max_size. lia.
Qed.

Lemma word_sized_small (n : Z) : -1000 <= n <= 1000 -> Fmt.word_sized n.
Proof. unfold Fmt.word_sized. lia. Qed.

Lemma short_text_word_sized (text : string) (config : Config) :
  total_words (process_text text config) <= 1000 ->
  total_words (process_text text config) < 2 ^ 63.
Proof. lia. Qed.

Lemma format_bar_length_witness :
  format_bar (2 ^ 62) "**" = inl Fmt.OverflowError /\
  exists bar,
    format_bar 2 (bar_char CONFIG) = inr bar /\ slen bar = 2.
Proof.
  split.
  - apply (proj1 (proj2 format_bar_length) (2 ^ 62) "**").
    right. vm_compute. reflexivity.
  - apply (proj2 (proj2 format_bar_length)
             "The cat sat on the mat. The cat ran." CONFIG "cat" 2).
    + apply short_text_word_sized. vm_compute. discriminate.
    + reflexivity.
    + vm_compute. tauto.
Defined.

Lemma index_column (index : Z) :
  Fmt.format_int index 2 = inr (column index 2).
Proof. apply (format_int_ok index 2). unfold Fmt.max_size. lia. Qed.

Lemma format_word_line_ok (index : Z) (word : string) (count : Z)
    (bar : string) (ww cw : Z) :
  0 <= ww <= Fmt.max_size -> Z.abs cw <= Fmt.max_size ->
  format_word_line index word count bar ww cw
  = inr ((column index 2 ++ ". ") ++ word
         ++ (Fmt.padding word ww ++ " " ++ column count (Z.abs cw) ++ " ")
         ++ bar).
Proof.
  intros Hw Hc. unfold format_word_line.
  rewrite index_column, format_str_ok, format_int_ok by trivial.
  f_equal. now rewrite !append_assoc.
Qed.

Lemma format_word_line_refused (index : Z) (word : string) (count : Z)
    (bar : string) (ww cw : Z) :
  ww < 0 \/ Fmt.max_size < ww \/ Fmt.max_size < Z.abs cw ->
  format_word_line index word count bar ww cw = inl Fmt.ValueError.
Proof.
  intros H. unfold format_word_line. rewrite index_column.
  destruct (Z.lt_ge_cases ww 0) as [Hneg|Hpos];
    [now rewrite format_str_refused by now left|].
  destruct (Z.lt_ge_cases Fmt.max_size ww) as [Hbig|Hsmall];
    [now rewrite format_str_refused by now right|].
  rewrite format_str_ok by lia. rewrite format_int_refused; [reflexivity|].
  lia.
Qed.

(** X15. [format_word_line], for an index and a count that fit a machine
    word: it raises [ValueError] when the word width is negative or above
    [sys.maxsize], or the count width is above [sys.maxsize] in absolute
    value.  Otherwise the line holds the word in full, never cut, after an
    index column of at least 4 characters, and the bar at its end, after
    the padding of the word and a count column of at least [|count_width|]
    characters. *)
Theorem format_word_line_layout (index : Z) (word : string) (count : Z)
    (bar : string) (ww cw : Z) :
  Fmt.word_sized index -> Fmt.word_sized count ->
  (ww < 0 \/ Fmt.max_size < ww \/ Fmt.max_size < Z.abs cw ->
   format_word_line index word count bar ww cw = inl Fmt.ValueError) /\
  (0 <= ww <= Fmt.max_size -> Z.abs cw <= Fmt.max_size ->
   exists pre post : string,
     format_word_line index word count bar ww cw
     = inr (pre ++ word ++ post ++ bar) /\
     slen pre = Z.max 2 (slen (Fmt.str index)) + 2 /\
     slen post = Z.max 0 (ww - slen word)
                 + Z.max (Z.abs cw) (slen (Fmt.str count)) + 2).
Proof.
  intros _ _. split; [apply format_word_line_refused|]. intros Hw Hc.
  exists (column index 2 ++ ". "),
         (Fmt.padding word ww ++ " " ++ column count (Z.abs cw) ++ " ").
  split; [now apply format_word_line_ok|].
  rewrite !slen_app, !slen_column, slen_padding.
  change (slen ". ") with 2. change (slen " ") with 1. lia.
Qed.

Lemma format_word_line_layout_witness :
  format_word_line 1 "cat" 2 "**" (-15) 3 = inl Fmt.ValueError /\
  format_word_line 1 "cat" 2 "**" 15 (- 2 ^ 63) = inl Fmt.ValueError /\
  exists pre post : string,
    format_word_line 1 "cat" 2 "**" 15 3 = inr (pre ++ "cat" ++ post ++ "**") /\
    slen pre = Z.max 2 (slen (Fmt.str 1)) + 2 /\
    slen post = Z.max 0 (15 - slen "cat")
                + Z.max (Z.abs 3) (slen (Fmt.str 2)) + 2.
Proof.
  split; [|split].
  - apply (proj1 (format_word_line_layout 1 "cat" 2 "**" (-15) 3
                    (word_sized_small 1 ltac:(lia))
                    (word_sized_small 2 ltac:(lia)))).
    left. lia.
  - apply (proj1 (format_word_line_layout 1 "cat" 2 "**" 15 (- 2 ^ 63)
                    (word_sized_small 1 ltac:(lia))
                    (word_sized_small 2 ltac:(lia)))).
    right. right. vm_compute. reflexivity.
  - apply (proj2 (format_word_line_layout 1 "cat" 2 "**" 15 3
                    (word_sized_small 1 ltac:(lia))
                    (word_sized_small 2 ltac:(lia))));
      unfold Fmt.max_size; lia.
Defined.

(** X16. Columns line up: for an index from 0 to 99, a word no longer than
    the word width and a count of at most [count_width] digits (widths and
    count within a machine word), the word starts in column 4 and the bar
    in column [word_width + count_width + 6], whatever the entry. *)
Theorem format_word_line_aligned (index : Z) (word : string) (count : Z)
    (bar : string) (ww cw : Z) :
  Fmt.word_sized count -> Fmt.word_sized ww -> Fmt.word_sized cw ->
  0 <= index <= 99 ->
  slen word <= ww ->
  1 <= cw ->
  0 <= count < 10 ^ cw ->
  exists pre post : string,
    format_word_line index word count bar ww cw
    = inr (pre ++ word ++ post ++ bar) /\
    slen pre = 4 /\
    slen (pre ++ word ++ post) = ww + cw + 6.
Proof.
  intros _ Hww Hcw Hi Hword Hcw1 Hcount.
  pose proof (slen_nonneg word) as Hw0.
  unfold Fmt.word_sized in Hww, Hcw.
  exists (column index 2 ++ ". "),
         (Fmt.padding word ww ++ " " ++ column count (Z.abs cw) ++ " ").
  split; [apply format_word_line_ok; unfold Fmt.max_size; lia|].
  assert (Hlen_i : slen (Fmt.str index) <= 2).
  { apply str_length; simpl; lia. }
  assert (Hlen_c : slen (Fmt.str count) <= cw) by now apply str_length.
  pose proof (slen_nonneg (Fmt.str index)).
  pose proof (slen_nonneg (Fmt.str count)).
  rewrite !slen_app, !slen_column, slen_padding.
  change (slen ". ") with 2. change (slen " ") with 1. lia.
Qed.

Lemma format_word_line_aligned_witness :
  exists pre post : string,
    format_word_line 12 "cat" 2 "**" 15 3
    = inr (pre ++ "cat" ++ post ++ "**") /\
    slen pre = 4 /\
    slen (pre ++ "cat" ++ post) = 15 + 3 + 6.
Proof.
  apply (format_word_line_aligned 12 "cat" 2 "**" 15 3
           (word_sized_small 2 ltac:(lia))
           (word_sized_small 15 ltac:(lia))
           (word_sized_small 3 ltac:(lia))).
  - lia.
  - vm_compute. discriminate.
  - lia.
  - simpl. lia.
Defined.

(** ** Computations that write *)

Lemma world_eta (w : World) :
  {| files := files w; stdout := stdout w ++ "" |} = w.
Proof. destruct w as [f o]. simpl. now rewrite append_nil_r. Qed.

Lemma bind_lift_inr {A B : Type} (a : A) (k : A -> IO B) :
  bind (lift (inr a)) k = k a.
Proof. reflexivity. Qed.

Lemma writes_ret {A : Type} (a : A) (w : World) : writes (ret a) w "".
Proof. exists a. unfold ret. now rewrite world_eta. Qed.

Lemma writes_print (s : string) (w : World) :
  writes (print s) w (s ++ Fmt.nl).
Proof. now exists tt. Qed.

Lemma writes_seq {A B : Type} (c1 : IO A) (c2 : IO B) (w : World)
    (o1 o2 : string) :
  writes c1 w o1 ->
  writes c2 {| files := files w; stdout := stdout w ++ o1 |} o2 ->
  writes (c1 ;;; c2) w (o1 ++ o2).
Proof.
  intros [a H1] [b H2]. exists b. unfold bind. rewrite H1, H2. simpl.
  now rewrite append_assoc.
Qed.

Lemma raises_lift {A B : Type} (e : Fmt.exn) (k : A -> IO B) (w : World) :
  raises (bind (lift (inl e)) k) w e "".
Proof. unfold raises, bind, lift, raise. now rewrite world_eta. Qed.

Lemma raises_first {A B : Type} (c : IO A) (k : A -> IO B) (w : World)
    (e : Fmt.exn) (o : string) :
  raises c w e o -> raises (bind c k) w e o.
Proof. unfold raises, bind. now intros ->. Qed.

Lemma raises_second {A B : Type} (c1 : IO A) (c2 : IO B) (w : World)
    (e : Fmt.exn) (o1 o2 : string) :
  writes c1 w o1 ->
  raises c2 {| files := files w; stdout := stdout w ++ o1 |} e o2 ->
  raises (c1 ;;; c2) w e (o1 ++ o2).
Proof.
  intros [a H1] H2. unfold raises, bind in *. rewrite H1, H2. simpl.
  now rewrite append_assoc.
Qed.

(** ** The report *)

Lemma format_word_line_entry (i : Z) (word : string) (count : Z)
    (config : Config) :
  widths_accepted config ->
  format_word_line i word count
    (Fmt.repeat_nat (bar_char config) (Z.to_nat count))
    (word_width config) (count_width config)
  = inr (entry_line i word count config).
Proof.
  intros [Hw Hc]. rewrite format_word_line_ok by trivial.
  unfold entry_line. now rewrite !append_assoc.
Qed.

Lemma print_entries_writes (config : Config) (entries : list (string * Z)) :
  widths_accepted config ->
  Forall (fun p => bar_fits (bar_char config) (snd p)) entries ->
  forall (i : Z) (w : World),
    writes (print_entries i entries config) w (entry_lines i entries config).
Proof.
  intros Hw Hfit.
  induction Hfit as [|[word count] rest Hbar _ IH]; intros i w.
  - apply writes_ret.
  - cbn [print_entries entry_lines]. cbn [snd] in Hbar.
    unfold format_bar. rewrite (repeat_ok _ _ Hbar), bind_lift_inr.
    rewrite format_word_line_entry, bind_lift_inr by trivial.
    rewrite <- append_assoc. apply writes_seq; [apply writes_print | apply IH].
Qed.

Lemma print_entries_refused (config : Config) (word : string) (count : Z)
    (rest : list (string * Z)) (i : Z) (w : World) :
  bar_fits (bar_char config) count -> widths_refused config ->
  raises (print_entries i ((word, count) :: rest) config) w
         Fmt.ValueError "".
Proof.
  intros Hbar Hw. cbn [print_entries]. unfold format_bar.
  rewrite (repeat_ok _ _ Hbar), bind_lift_inr.
  rewrite format_word_line_refused by exact Hw. apply raises_lift.
Qed.

Lemma print_entries_overflow (config : Config) (word : string) (count : Z)
    (rest : list (string * Z)) (i : Z) (w : World) :
  ~ Fmt.word_sized count \/
  Fmt.max_size < slen (bar_char config) * Z.max 0 count ->
  raises (print_entries i ((word, count) :: rest) config) w
         Fmt.OverflowError "".
Proof.
  intros H. cbn [print_entries]. unfold format_bar.
  rewrite repeat_overflow by exact H. apply raises_lift.
Qed.

Lemma rule_ok : Fmt.repeat "=" 50 = inr (Fmt.repeat_nat "=" 50).
Proof. reflexivity. Qed.

Lemma print_header_writes (filename : string) (w : World) :
  writes (print_header filename) w (header_text filename).
Proof.
  unfold print_header, header_text. rewrite rule_ok, bind_lift_inr.
  replace (Fmt.nl ++ Fmt.repeat_nat "=" 50 ++ Fmt.nl
           ++ "WORD FREQUENCY ANALYSIS - " ++ filename ++ Fmt.nl
           ++ Fmt.repeat_nat "=" 50 ++ Fmt.nl ++ Fmt.nl)
    with (((Fmt.nl ++ Fmt.repeat_nat "=" 50) ++ Fmt.nl)
          ++ (("WORD FREQUENCY ANALYSIS - " ++ filename) ++ Fmt.nl)
          ++ ((Fmt.repeat_nat "=" 50 ++ Fmt.nl) ++ Fmt.nl))
    by (now rewrite !append_assoc).
  apply writes_seq; [apply writes_print|].
  apply writes_seq; [apply writes_print|].
  rewrite bind_lift_inr. apply writes_print.
Qed.

Lemma print_summary_writes (result : Result) (w : World) :
  writes (print_summary result) w
         (summary_text (total_words result) (unique_words result)).
Proof.
  unfold print_summary, summary_text.
  replace ("Total words (after removing stopwords): "
           ++ Fmt.str (total_words result) ++ Fmt.nl
           ++ "Unique words: " ++ Fmt.str (unique_words result)
           ++ Fmt.nl ++ Fmt.nl)
    with ((("Total words (after removing stopwords): "
            ++ Fmt.str (total_words result)) ++ Fmt.nl)
          ++ (("Unique words: " ++ Fmt.str (unique_words result) ++ Fmt.nl)
              ++ Fmt.nl))
    by (now rewrite !append_assoc).
  apply writes_seq; apply writes_print.
Qed.

Lemma print_heading_writes (config : Config) (w : World) :
  writes (print ("Top " ++ Fmt.str (top_n config)
                 ++ " most frequent words:" ++ Fmt.nl)) w
         (top_heading config).
Proof.
  unfold top_heading.
  replace ("Top " ++ Fmt.str (top_n config) ++ " most frequent words:"
           ++ Fmt.nl ++ Fmt.nl)
    with (("Top " ++ Fmt.str (top_n config) ++ " most frequent words:"
           ++ Fmt.nl) ++ Fmt.nl)
    by (now rewrite !append_assoc).
  apply writes_print.
Qed.

Lemma print_top_words_writes (result : Result) (config : Config) (w : World) :
  Forall (fun p => bar_fits (bar_char config) (snd p)) (top_words result) ->
  widths_accepted config \/ top_words result = [] ->
  writes (print_top_words result config) w
         (top_heading config ++ entry_lines 1 (top_words result) config
          ++ Fmt.nl).
Proof.
  intros Hfit H. unfold print_top_words.
  apply writes_seq; [apply print_heading_writes|].
  apply writes_seq; [|apply (writes_print "")].
  destruct H as [Hw | ->]; [now apply print_entries_writes | apply writes_ret].
Qed.

Lemma print_top_words_raises (result : Result) (config : Config) (w : World)
    (e : Fmt.exn) :
  (forall w', raises (print_entries 1 (top_words result) config) w' e "") ->
  raises (print_top_words result config) w e (top_heading config).
Proof.
  intros H. unfold print_top_words.
  rewrite <- (append_nil_r (top_heading config)).
  apply raises_second; [apply print_heading_writes|].
  apply raises_first. apply H.
Qed.

(** X17. [print_top_words], for a result and a limit whose [int]s fit a
    machine word.  When every bar can be built and the widths are accepted,
    or there is no entry, it writes its heading, one line per entry of
    [top_words] in order, numbered from 1, and an empty line.  When the bar
    of the first entry can be built and a width is refused, it raises
    [ValueError] after the heading alone has been written; when the bar of
    the first entry cannot be built, it raises [OverflowError] at the same
    point.  In all cases what was on the standard output before stays, and
    no file is touched. *)
Theorem print_top_words_outcome (result : Result) (config : Config)
    (w : World) :
  Fmt.word_sized (top_n config) -> result_word_sized result ->
  (Forall (fun p => bar_fits (bar_char config) (snd p)) (top_words result) ->
   widths_accepted config \/ top_words result = [] ->
   writes (print_top_words result config) w
          (top_heading config ++ entry_lines 1 (top_words result) config
           ++ Fmt.nl)) /\
  (forall word count rest,
     top_words result = (word, count) :: rest ->
     bar_fits (bar_char config) count -> widths_refused config ->
     raises (print_top_words result config) w Fmt.ValueError
            (top_heading config)) /\
  (forall word count rest,
     top_words result = (word, count) :: rest ->
     Fmt.max_size < slen (bar_char config) * Z.max 0 count ->
     raises (print_top_words result config) w Fmt.OverflowError
            (top_heading config)).
Proof.
  intros _ _. split; [apply print_top_words_writes | split].
  - intros word count rest E Hbar Hw. apply print_top_words_raises.
    intros w'. rewrite E. now apply print_entries_refused.
  - intros word count rest E Hbar. apply print_top_words_raises.
    intros w'. rewrite E. apply print_entries_overflow. now right.
Qed.

Lemma print_top_words_outcome_witness :
  raises (print_top_words (process_text "b a b" CONFIG)
                          (mkConfig [] "" 10 "*" 15 (- 2 ^ 63)))
         (mkWorld (fun _ => inl Fmt.OSError) "") Fmt.ValueError
         (top_heading (mkConfig [] "" 10 "*" 15 (- 2 ^ 63))).
Proof.
  apply (proj1 (proj2 (print_top_words_outcome
                  (process_text "b a b" CONFIG)
                  (mkConfig [] "" 10 "*" 15 (- 2 ^ 63))
                  (mkWorld (fun _ => inl Fmt.OSError) "")
                  (word_sized_small 10 ltac:(lia))
                  (process_text_word_sized "b a b" CONFIG
                     (short_text_word_sized "b a b" CONFIG
                        ltac:(vm_compute; discriminate)))))
           "b" 2 []).
  - reflexivity.
  - split; [apply word_sized_small; lia | vm_compute; discriminate].
  - right. right. vm_compute. reflexivity.
Defined.

(** ** Lines of the report *)

Lemma line_feeds_app (a b : string) :
  line_feeds (a ++ b) = line_feeds a + line_feeds b.
Proof. induction a as [|c a IH]; simpl; [reflexivity | rewrite IH; lia]. Qed.

Lemma line_feeds_repeat_nat (s : string) (n : nat) :
  line_feeds s = 0 -> line_feeds (Fmt.repeat_nat s n) = 0.
Proof.
  intros Hs. induction n as [|k IH]; [reflexivity|].
  cbn [Fmt.repeat_nat]. rewrite line_feeds_app. lia.
Qed.

Lemma digit_no_line_feed (d : Z) :
  0 <= d < 10 -> Ascii.eqb (Fmt.digit d) (ascii_of_N 10) = false.
Proof.
  intros H.
  assert (E : d = 0 \/ d = 1 \/ d = 2 \/ d = 3 \/ d = 4 \/ d = 5 \/ d = 6
              \/ d = 7 \/ d = 8 \/ d = 9) by lia.
  repeat destruct E as [->|E]; try subst d; reflexivity.
Qed.

Lemma line_feeds_digits (fuel : nat) : forall (n : Z) (acc : string),
  line_feeds (Fmt.digits fuel n acc) = line_feeds acc.
Proof.
  induction fuel as [|fuel IH]; intros n acc; cbn [Fmt.digits];
    [reflexivity|].
  assert (Hd : line_feeds (String (Fmt.digit (n mod 10)) acc)
               = line_feeds acc).
  { cbn [line_feeds]. rewrite digit_no_line_feed; [lia|].
    apply Z.mod_pos_bound. lia. }
  destruct (n <? 10); [exact Hd | now rewrite IH].
Qed.

Lemma line_feeds_str (n : Z) : line_feeds (Fmt.str n) = 0.
Proof.
  unfold Fmt.str, Fmt.str_nonneg. destruct (n <? 0).
  - cbn [line_feeds]. now rewrite line_feeds_digits.
  - now rewrite line_feeds_digits.
Qed.

Lemma line_feeds_column (n w : Z) : line_feeds (column n w) = 0.
Proof.
  unfold column, Fmt.padding.
  rewrite line_feeds_app, line_feeds_repeat_nat, line_feeds_str; reflexivity.
Qed.

Lemma line_feeds_word (w : string) : whitespace_free w -> line_feeds w = 0.
Proof.
  unfold whitespace_free. induction w as [|c w IH]; [reflexivity|].
  cbn [all_chars line_feeds]. intros H.
  apply andb_true_iff in H. destruct H as [Hc Hw]. rewrite (IH Hw).
  destruct (Ascii.eqb c (ascii_of_N 10)) eqn:E; [|reflexivity].
  apply Ascii.eqb_eq in E. subst c. discriminate Hc.
Qed.

Lemma line_feeds_entry_line (i : Z) (word : string) (count : Z)
    (config : Config) :
  line_feeds word = 0 -> line_feeds (bar_char config) = 0 ->
  line_feeds (entry_line i word count config) = 0.
Proof.
  intros Hw Hb. unfold entry_line, Fmt.padding.
  rewrite !line_feeds_app, !line_feeds_column, Hw.
  rewrite !line_feeds_repeat_nat by trivial. reflexivity.
Qed.

Lemma line_feeds_entry_lines (config : Config) (entries : list (string * Z)) :
  line_feeds (bar_char config) = 0 ->
  Forall (fun p => line_feeds (fst p) = 0) entries ->
  forall i, line_feeds (entry_lines i entries config) = Py.len entries.
Proof.
  intros Hb H. unfold Py.len.
  induction H as [|[word count] rest Hw _ IH]; intros i; [reflexivity|].
  cbn [entry_lines List.length]. simpl in Hw.
  rewrite !line_feeds_app, line_feeds_entry_line, IH by trivial.
  change (line_feeds Fmt.nl) with 1. lia.
Qed.

Lemma ranked_bars_fit (text : string) (config : Config) :
  total_words (process_text text config) < 2 ^ 63 ->
  slen (bar_char config) * total_words (process_text text config)
  <= Fmt.max_size ->
  Forall (fun p => bar_fits (bar_char config) (snd p))
         (top_words (process_text text config)).
Proof.
  intros Hlt Hfit. apply Forall_forall. intros [w c] Hin. cbn [snd].
  now apply (ranked_bar_fits text config w c).
Qed.

(** X18. One line per ranked word: for a result of [process_text] with
    fewer than 2^63 tokens, a limit within a machine word, bars of at most
    [sys.maxsize] characters, widths that are accepted and a bar string
    without line feed, [print_top_words] writes as many line feeds as there
    are entries in [top_words], and three more (heading, the empty line
    after it, the empty line at the end). *)
Theorem one_line_per_entry (text : string) (config : Config) (w : World) :
  Fmt.word_sized (top_n config) ->
  total_words (process_text text config) < 2 ^ 63 ->
  slen (bar_char config) * total_words (process_text text config)
  <= Fmt.max_size ->
  widths_accepted config ->
  line_feeds (bar_char config) = 0 ->
  let r := process_text text config in
  exists out : string,
    writes (print_top_words r config) w out /\
    line_feeds out = 3 + Py.len (top_words r).
Proof.
  intros _ Hlt Hfit Hw Hb r.
  exists (top_heading config ++ entry_lines 1 (top_words r) config ++ Fmt.nl).
  split.
  - apply print_top_words_writes; [now apply ranked_bars_fit | now left].
  - rewrite !line_feeds_app, line_feeds_entry_lines; trivial.
    + unfold top_heading. rewrite !line_feeds_app, line_feeds_str.
      change (line_feeds Fmt.nl) with 1. change (line_feeds "Top ") with 0.
      change (line_feeds " most frequent words:") with 0. lia.
    + apply Forall_forall. intros [word count] Hin. cbn [fst].
      apply line_feeds_word.
      apply (ranked_word_shape text config word count Hin).
Qed.

Lemma small_config_word_sized (config : Config) :
  -1000 <= top_n config <= 1000 ->
  -1000 <= word_width config <= 1000 ->
  -1000 <= count_width config <= 1000 ->
  config_word_sized config.
Proof.
  intros H1 H2 H3. split; [|split]; apply word_sized_small; lia.
Qed.

Lemma default_config_word_sized : config_word_sized CONFIG.
Proof. apply small_config_word_sized; simpl; lia. Qed.

Lemma default_widths_accepted : widths_accepted CONFIG.
Proof. unfold widths_accepted, Fmt.max_size. simpl. lia. Qed.

Lemma one_line_per_entry_witness :
  exists out : string,
    writes (print_top_words (process_text "b a b c" CONFIG) CONFIG)
           (mkWorld (fun _ => inl Fmt.OSError) "") out /\
    line_feeds out
    = 3 + Py.len (top_words (process_text "b a b c" CONFIG)).
Proof.
  apply (one_line_per_entry "b a b c" CONFIG
           (mkWorld (fun _ => inl Fmt.OSError) "")
           (word_sized_small 10 ltac:(lia))
           (short_text_word_sized "b a b c" CONFIG
              ltac:(vm_compute; discriminate))).
  - vm_compute. discriminate.
  - exact default_widths_accepted.
  - reflexivity.
Defined.

(** ** The whole report and the entry point *)

Lemma print_results_writes (result : Result) (filename : string)
    (config : Config) (w : World) :
  Forall (fun p => bar_fits (bar_char config) (snd p)) (top_words result) ->
  widths_accepted config \/ top_words result = [] ->
  writes (print_results result filename config) w
         (header_text filename
          ++ summary_text (total_words result) (unique_words result)
          ++ top_heading config
          ++ entry_lines 1 (top_words result) config ++ Fmt.nl).
Proof.
  intros Hfit H. unfold print_results.
  apply writes_seq; [apply print_header_writes|].
  apply writes_seq; [apply print_summary_writes|].
  now apply print_top_words_writes.
Qed.

Lemma print_results_raises (result : Result) (filename : string)
    (config : Config) (w : World) (e : Fmt.exn) :
  (forall w', raises (print_entries 1 (top_words result) config) w' e "") ->
  raises (print_results result filename config) w e
         (header_text filename
          ++ summary_text (total_words result) (unique_words result)
          ++ top_heading config).
Proof.
  intros H. unfold print_results.
  apply raises_second; [apply print_header_writes|].
  apply raises_second; [apply print_summary_writes|].
  now apply print_top_words_raises.
Qed.

(** X19. A text without tokens gets a full report and no error, whatever
    the configuration within a machine word (a negative word width
    included): the header, the summary with both counts 0, the heading of
    the ranking, and no entry line. *)
Theorem report_without_tokens (text filename : string) (config : Config)
    (w : World) :
  config_word_sized config ->
  filtered_words text config = [] ->
  writes (print_results (process_text text config) filename config) w
         (header_text filename ++ summary_text 0 0 ++ top_heading config
          ++ Fmt.nl).
Proof.
  intros _ H. rewrite (no_tokens_empty_result text config H).
  apply (print_results_writes empty_result filename config w);
    [constructor | now right].
Qed.

Lemma report_without_tokens_witness :
  writes (print_results
            (process_text "The a an."
               (mkConfig (stopwords CONFIG) (punctuation CONFIG)
                         10 "*" (-15) 3))
            "essay.txt"
            (mkConfig (stopwords CONFIG) (punctuation CONFIG) 10 "*" (-15) 3))
         (mkWorld (fun _ => inl Fmt.OSError) "")
         (header_text "essay.txt" ++ summary_text 0 0
          ++ top_heading (mkConfig (stopwords CONFIG) (punctuation CONFIG)
                                   10 "*" (-15) 3)
          ++ Fmt.nl).
Proof.
  apply (report_without_tokens "The a an." "essay.txt"
           (mkConfig (stopwords CONFIG) (punctuation CONFIG) 10 "*" (-15) 3)
           (mkWorld (fun _ => inl Fmt.OSError) "")
           (small_config_word_sized
              (mkConfig (stopwords CONFIG) (punctuation CONFIG) 10 "*" (-15) 3)
              ltac:(simpl; lia) ltac:(simpl; lia) ltac:(simpl; lia))).
  reflexivity.
Defined.

(** X20. The outcome of [count_words], with ["essay.txt"] and [CONFIG]
    standing for the arguments left out, for a limit within a machine word.
    A file name with a NUL character raises [ValueError], and a file that
    cannot be read raises the exception of the reading; in both cases
    nothing is written.  When the file is read, has fewer than 2^63 tokens
    and bars of at most [sys.maxsize] characters: if the widths are accepted
    or nothing is ranked, it returns, having written the report of
    [process_text] on the content of the file; if a width is refused and
    something is ranked, it raises [ValueError] after the header, the
    summary and the heading of the ranking.  With the default configuration
    it therefore returns for every such file.  It never changes a file nor
    what was written before. *)
Theorem count_words_outcome (file : option string) (config : option Config)
    (w : World) :
  let f := match file with Some f => f | None => "essay.txt" end in
  let cfg := match config with Some c => c | None => CONFIG end in
  Fmt.word_sized (top_n cfg) ->
  (Fmt.has_nul f = true ->
   raises (count_words file config) w Fmt.ValueError "") /\
  (Fmt.has_nul f = false -> forall e, files w f = inl e ->
   raises (count_words file config) w e "") /\
  (Fmt.has_nul f = false -> forall text, files w f = inr text ->
     let r := process_text text cfg in
     total_words r < 2 ^ 63 ->
     slen (bar_char cfg) * total_words r <= Fmt.max_size ->
     (widths_accepted cfg \/ top_words r = [] ->
      writes (count_words file config) w
             (header_text f
              ++ summary_text (total_words r) (unique_words r)
              ++ top_heading cfg ++ entry_lines 1 (top_words r) cfg
              ++ Fmt.nl)) /\
     (widths_refused cfg -> top_words r <> [] ->
      raises (count_words file config) w Fmt.ValueError
             (header_text f
              ++ summary_text (total_words r) (unique_words r)
              ++ top_heading cfg))) /\
  (config = None ->
   Fmt.has_nul f = false -> forall text, files w f = inr text ->
     total_words (process_text text cfg) < 2 ^ 63 ->
     exists out, writes (count_words file config) w out).
Proof.
  intros f cfg _.
  assert (Hread : Fmt.has_nul f = false ->
            forall text, files w f = inr text ->
            count_words file config w
            = print_results (process_text text cfg) f cfg w).
  { intros Hnul text Hf. unfold count_words, bind, read_text_file.
    fold f. fold cfg. now rewrite Hnul, Hf. }
  split; [|split; [|split]].
  - intros Hnul. unfold raises, count_words, bind, read_text_file.
    fold f. rewrite Hnul. now rewrite world_eta.
  - intros Hnul e Hf. unfold raises, count_words, bind, read_text_file.
    fold f. rewrite Hnul, Hf. now rewrite world_eta.
  - intros Hnul text Hf r Hlt Hfit. split.
    + intros H. unfold writes. rewrite (Hread Hnul text Hf).
      apply print_results_writes; [now apply ranked_bars_fit | exact H].
    + intros Hw Hne. unfold raises. rewrite (Hread Hnul text Hf).
      apply print_results_raises. intros w'.
      pose proof (ranked_bars_fit text cfg Hlt Hfit) as Hbars. fold r in Hbars.
      destruct (top_words r) as [|[word count] rest]; [congruence|].
      apply print_entries_refused; [|exact Hw].
      now inversion Hbars.
  - intros -> Hnul text Hf Hlt. eexists. unfold writes.
    rewrite (Hread Hnul text Hf).
    apply print_results_writes; [|left; exact default_widths_accepted].
    apply ranked_bars_fit; [exact Hlt|].
    change (slen (bar_char cfg)) with 1. unfold Fmt.max_size. lia.
Qed.

Lemma count_words_outcome_witness :
  raises (count_words (Some "missing.txt") None)
         (mkWorld (fun name => if String.eqb name "essay.txt"
                               then inr "The cat sat."
                               else inl Fmt.OSError) "")
         Fmt.OSError "" /\
  exists out,
    writes (count_words None None)
           (mkWorld (fun name => if String.eqb name "essay.txt"
                                 then inr "The cat sat."
                                 else inl Fmt.OSError) "")
           out.
Proof.
  split.
  - apply (proj1 (proj2 (count_words_outcome (Some "missing.txt") None
             (mkWorld (fun name => if String.eqb name "essay.txt"
                                   then inr "The cat sat."
                                   else inl Fmt.OSError) "")
             (word_sized_small 10 ltac:(lia))))
             eq_refl Fmt.OSError).
    reflexivity.
  - apply (proj2 (proj2 (proj2 (count_words_outcome None None
             (mkWorld (fun name => if String.eqb name "essay.txt"
                                   then inr "The cat sat."
                                   else inl Fmt.OSError) "")
             (word_sized_small 10 ltac:(lia)))))
             eq_refl eq_refl "The cat sat." eq_refl
             (short_text_word_sized "The cat sat." CONFIG
                ltac:(vm_compute; discriminate))).
Defined.

(** * Further properties of the ranking *)

Lemma sum_nil : Py.sum [] = 0.
Proof. reflexivity. Qed.

Lemma sum_app (l1 l2 : list Z) : Py.sum (l1 ++ l2) = Py.sum l1 + Py.sum l2.
Proof.
  induction l1 as [|x l1 IH]; simpl app; [rewrite sum_nil; lia|].
  rewrite !sum_cons, IH. lia.
Qed.

Lemma sum_permutation (l l' : list Z) :
  Permutation l l' -> Py.sum l = Py.sum l'.
Proof.
  induction 1 as [| x l l' _ IH | x y l | l l' l'' _ IH1 _ IH2].
  - reflexivity.
  - now rewrite !sum_cons, IH.
  - rewrite !sum_cons. lia.
  - now rewrite IH1.
Qed.

Lemma sum_nonneg (l : list Z) : Forall (fun x => 0 <= x) l -> 0 <= Py.sum l.
Proof.
  induction 1 as [|x l Hx _ IH]; [rewrite sum_nil; lia|].
  rewrite sum_cons. lia.
Qed.


(** X22. The counts of the ranked entries never add up to more than
    [total_words]; they add up to [total_words] exactly when the limit is
    at least the number of distinct tokens, so that nothing is cut off. *)
Theorem ranked_counts_total (text : string) (config : Config) :
  let r := process_text text config in
  Py.sum (map snd (top_words r)) <= total_words r /\
  (unique_words r <= top_n config ->
   Py.sum (map snd (top_words r)) = total_words r).
Proof.
  intros r.
  set (sorted := sort_words_by_frequency (counts r)).
  assert (Hsum : Py.sum (map snd sorted) = total_words r).
  { symmetry. apply sum_permutation. apply Permutation_map.
    apply (sorted_reverse_perm snd). }
  split.
  - destruct (top_words_prefix text config) as [k Hk]. fold r sorted in Hk.
    rewrite Hk, <- Hsum.
    rewrite <- (firstn_skipn k sorted) at 2. rewrite map_app, sum_app.
    assert (0 <= Py.sum (map snd (skipn k sorted))); [|lia].
    apply sum_nonneg. apply Forall_forall. intros c Hc.
    apply in_map_iff in Hc. destruct Hc as ([w c'] & <- & Hin). cbn [snd].
    assert (Hin' : In (w, c') sorted).
    { rewrite <- (firstn_skipn k sorted). apply in_or_app. now right. }
    apply (Permutation_in _ (Permutation_sym
                               (sorted_reverse_perm snd (counts r)))) in Hin'.
    unfold r in Hin'. rewrite process_text_counts in Hin'.
    apply count_items in Hin'. destruct Hin' as [Hw ->].
    apply occurrences_pos in Hw. lia.
  - intros Hle. rewrite <- Hsum. do 2 f_equal.
    unfold r at 1. rewrite process_text_top_words. fold r sorted.
    unfold get_top_words, Py.slice_to.
    assert (Hlen : Py.len sorted = unique_words r).
    { unfold sorted, Py.len. now rewrite sort_words_length. }
    assert (0 <= unique_words r) by (rewrite <- Hlen; unfold Py.len; lia).
    destruct (Z.ltb_spec (top_n config) 0); [lia|].
    apply firstn_all2. unfold Py.len in Hlen. lia.
Qed.

Lemma ranked_counts_total_witness :
  Py.sum (map snd (top_words (process_text "b a b c a b" CONFIG)))
  = total_words (process_text "b a b c a b" CONFIG).
Proof.
  apply (proj2 (ranked_counts_total "b a b c a b" CONFIG)).
  vm_compute. discriminate.
Defined.
